(** * WanderSync (Delhi trip accounts): ledger and balance model

    A shallow embedding of the balance calculator of [src/App.tsx] and of the
    SQLite-backed routes of [server.ts].

    Number model.  The cells and the amounts are JavaScript numbers.  The
    state holds the whole number in each of them as a [Z] (the tables declare
    the columns [INTEGER]).  The calculation is embedded twice.  Module
    [Double] is the calculation as the component runs it: every operand is
    the binary64 double of its cell, and [+], [-], [/] and [Math.max] are
    those of IEEE 754, with their rounding, infinities and NaN.  Module [App]
    gives the same formulas in exact arithmetic, on [Z] and, for the quotient
    by 3, on [Q]: these are the numbers the doubles hold as long as the
    magnitudes stay below 2^53 ([trip_figures_exact],
    [savings_figures_exact]).  Text columns ([id], [title], [category],
    [accountId], [date], [time]) are [string]s. *)

From Stdlib Require Import ZArith QArith Qminmax Qabs String List Lia.
From Stdlib Require Import Permutation.
From Stdlib Require Decimal DecimalPos DecimalN DecimalString.
From Stdlib Require Import Floats.
From stdpp Require Import base decidable option list sorting strings gmap.

Import ListNotations.
Local Open Scope string_scope.
Local Open Scope list_scope.
Local Open Scope Z_scope.

(** ** src/App.tsx: types *)

(** [type AccountType = "trip" | "savings"] is a compile-time annotation; the
    value is whatever text the [accountId] column holds, and the calculator
    tests it with [===]. *)
Definition AccountType := string.

Module Expense.
Record t := mk {
  id : string;
  title : string;
  amount : Z;
  category : string;
  date : string;
  time : string;
  accountId : AccountType
}.
End Expense.

Module Income.
Record t := mk {
  id : string;
  title : string;
  amount : Z;
  category : string;
  date : string;
  accountId : AccountType
}.
End Income.

Module Place.
Record t := mk {
  id : string;
  title : string;
  category : string
}.
End Place.

(** The sum a1 + ... + aN of the amounts of a list of entries, in exact
    integer arithmetic, in the order of
    [reduce((sum, e) => sum + e.amount, 0)]. *)
Definition total {A : Type} (amount : A -> Z) (l : list A) : Z :=
  fold_left (fun sum e => sum + amount e) l 0.

(** [n.toString()] of a non-negative integer, as in
    [Date.now().toString()]: its decimal digits. *)
Definition toString (n : N) : string :=
  DecimalString.NilZero.string_of_uint (N.to_uint n).

(** Two successive timestamps: the second is later and has as many digits. *)
Definition later_same_width (n m : N) : Prop :=
  (n < m)%N /\ String.length (toString n) = String.length (toString m).

(** ** server.ts: the database *)

Module Server.

(** Codes of the [SqliteError]s that the statements of the routes can throw. *)
Inductive SqliteError :=
| SQLITE_CONSTRAINT_PRIMARYKEY
| SQLITE_CONSTRAINT_UNIQUE
| SQLITE_CONSTRAINT_FOREIGNKEY.

Inductive result (A : Type) :=
| Ok (a : A)
| Throw (e : SqliteError).
Arguments Ok {A} a.
Arguments Throw {A} e.

(** [users]: the password hash column plays no part in the data routes and is
    left out. *)
Module Users.
Record row := mk {
  id : Z;
  username : string
}.
End Users.

(** [finances]: the eight [INTEGER DEFAULT 0] columns; the key [user_id] is
    the key of the map holding the rows. *)
Module Finances.
Record row := mk {
  totalBudget : Z;
  platinumTicket : Z;
  pendingPlatinum : Z;
  flightTotal : Z;
  myFlightShare : Z;
  stay : Z;
  expectedIncoming : Z;
  baseSavings : Z
}.
Definition default : row := mk 0 0 0 0 0 0 0 0.
End Finances.

(** [expenses], [incomes], [places]: an [id TEXT PRIMARY KEY], a [user_id]
    and the columns of the entry.  A table is the list of its rows in
    insertion (rowid) order. *)
Class Entry (E : Type) := entry_id : E -> string.
#[global] Instance Expense_Entry : Entry Expense.t := Expense.id.
#[global] Instance Income_Entry : Entry Income.t := Income.id.
#[global] Instance Place_Entry : Entry Place.t := Place.id.

Record row (E : Type) := mkRow {
  user_id : Z;
  entry : E
}.
Arguments mkRow {E} user_id entry.
Arguments user_id {E} r.
Arguments entry {E} r.

Definition row_id {E} `{Entry E} (r : row E) : string := entry_id (entry r).

(** [foreign_keys] is the connection's pragma of that name: the source never
    sets it, so its value is the driver's default. *)
Record Db := mkDb {
  foreign_keys : bool;
  users : list Users.row;
  finances : gmap Z Finances.row;
  expenses : list (row Expense.t);
  incomes : list (row Income.t);
  places : list (row Place.t)
}.

Definition empty_db (fk : bool) : Db := mkDb fk [] ∅ [] [] [].

(** *** Statements *)

(** The rowid an [AUTOINCREMENT] key gives the next row (no row is ever
    deleted). *)
Definition lastInsertRowid (us : list Users.row) : Z :=
  1 + foldr Z.max 0 (Users.id <$> us).

(** [INSERT INTO users (username, password) VALUES (?, ?)], [username UNIQUE] *)
Definition insert_user (username : string) (us : list Users.row)
  : result (list Users.row * Z) :=
  if bool_decide (username ∈ Users.username <$> us)
  then Throw SQLITE_CONSTRAINT_UNIQUE
  else Ok (us ++ [Users.mk (lastInsertRowid us) username], lastInsertRowid us).

(** The [FOREIGN KEY(user_id) REFERENCES users(id)] clause of the four data
    tables, enforced when the pragma is on. *)
Definition references_user (db : Db) (userId : Z) : bool :=
  negb (foreign_keys db) || bool_decide (userId ∈ Users.id <$> users db).

(** [INSERT INTO finances (user_id) VALUES (?)] *)
Definition insert_finances (userId : Z) (db : Db)
  : result (gmap Z Finances.row) :=
  match finances db !! userId with
  | Some _ => Throw SQLITE_CONSTRAINT_PRIMARYKEY
  | None =>
      if references_user db userId
      then Ok (<[userId := Finances.default]> (finances db))
      else Throw SQLITE_CONSTRAINT_FOREIGNKEY
  end.

(** [UPDATE finances SET ... WHERE user_id = ?] *)
Definition update_finances (userId : Z) (body : Finances.row)
    (fin : gmap Z Finances.row) : gmap Z Finances.row :=
  match fin !! userId with
  | Some _ => <[userId := body]> fin
  | None => fin
  end.

(** [INSERT INTO <table> (id, user_id, ...) VALUES (?, ?, ...)]: the primary
    key is checked on the row, the foreign key when the statement ends. *)
Definition insert_row {E} `{Entry E} (db : Db) (t : list (row E)) (r : row E)
  : result (list (row E)) :=
  if bool_decide (row_id r ∈ row_id <$> t)
  then Throw SQLITE_CONSTRAINT_PRIMARYKEY
  else if references_user db (user_id r)
  then Ok (t ++ [r])
  else Throw SQLITE_CONSTRAINT_FOREIGNKEY.

(** [ORDER BY id DESC] on a [TEXT] column: bytewise comparison. *)
Definition id_desc {E} `{Entry E} : relation (row E) :=
  fun r1 r2 => String.leb (row_id r2) (row_id r1) = true.

#[global] Instance id_desc_dec {E} `{Entry E} (r1 r2 : row E) :
  Decision (id_desc r1 r2).
Proof. unfold id_desc. apply _. Defined.

(** The strict bytewise order on the identifiers of two rows. *)
Definition id_lt {E} `{Entry E} : relation (row E) :=
  fun r1 r2 => String.ltb (row_id r1) (row_id r2) = true.

(** [SELECT * FROM <table> WHERE user_id = ? ORDER BY id DESC] *)
Definition select_by_user {E} `{Entry E} (userId : Z) (t : list (row E))
  : list (row E) :=
  merge_sort id_desc (filter (fun r => user_id r = userId) t).

(** *** Routes *)

Inductive response :=
| json_success
| json_token (userId : Z) (username : string)
| json_error (status : Z) (error : string)
| uncaught (e : SqliteError).

Definition set_users (us : list Users.row) (db : Db) : Db :=
  mkDb (foreign_keys db) us (finances db) (expenses db) (incomes db) (places db).
Definition set_finances (fin : gmap Z Finances.row) (db : Db) : Db :=
  mkDb (foreign_keys db) (users db) fin (expenses db) (incomes db) (places db).
Definition set_expenses (t : list (row Expense.t)) (db : Db) : Db :=
  mkDb (foreign_keys db) (users db) (finances db) t (incomes db) (places db).
Definition set_incomes (t : list (row Income.t)) (db : Db) : Db :=
  mkDb (foreign_keys db) (users db) (finances db) (expenses db) t (places db).
Definition set_places (t : list (row Place.t)) (db : Db) : Db :=
  mkDb (foreign_keys db) (users db) (finances db) (expenses db) (incomes db) t.

Definition register_error (e : SqliteError) : response :=
  match e with
  | SQLITE_CONSTRAINT_UNIQUE => json_error 400 "Username already exists"
  | _ => json_error 500 "Server error"
  end.

(** [POST /api/auth/register]: the two inserts are separate statements, so the
    user row stays when the second one throws. *)
Definition post_register (username : string) (db : Db) : Db * response :=
  match insert_user username (users db) with
  | Throw e => (db, register_error e)
  | Ok (us, userId) =>
      let db1 := set_users us db in
      match insert_finances userId db1 with
      | Throw e => (db1, register_error e)
      | Ok fin => (set_finances fin db1, json_token userId username)
      end
  end.

(** [POST /api/finances] *)
Definition post_finances (userId : Z) (body : Finances.row) (db : Db)
  : Db * response :=
  (set_finances (update_finances userId body (finances db)) db, json_success).

(** [POST /api/expenses], [POST /api/incomes], [POST /api/places]: an error
    of [stmt.run] is not caught by the handler. *)
Definition post_expenses (userId : Z) (body : Expense.t) (db : Db)
  : Db * response :=
  match insert_row db (expenses db) (mkRow userId body) with
  | Ok t => (set_expenses t db, json_success)
  | Throw e => (db, uncaught e)
  end.

Definition post_incomes (userId : Z) (body : Income.t) (db : Db)
  : Db * response :=
  match insert_row db (incomes db) (mkRow userId body) with
  | Ok t => (set_incomes t db, json_success)
  | Throw e => (db, uncaught e)
  end.

Definition post_places (userId : Z) (body : Place.t) (db : Db)
  : Db * response :=
  match insert_row db (places db) (mkRow userId body) with
  | Ok t => (set_places t db, json_success)
  | Throw e => (db, uncaught e)
  end.

(** [GET /api/data]: [d_finances] is [None] for the [{}] that stands in for a
    missing row. *)
Record Data := mkData {
  d_finances : option Finances.row;
  d_expenses : list (row Expense.t);
  d_incomes : list (row Income.t);
  d_places : list (row Place.t)
}.

Definition get_data (userId : Z) (db : Db) : Data :=
  mkData (finances db !! userId)
         (select_by_user userId (expenses db))
         (select_by_user userId (incomes db))
         (select_by_user userId (places db)).

(** The requests that write, and a run of them. *)
Inductive request :=
| Register (username : string)
| PostFinances (userId : Z) (body : Finances.row)
| PostExpense (userId : Z) (body : Expense.t)
| PostIncome (userId : Z) (body : Income.t)
| PostPlace (userId : Z) (body : Place.t).

Definition handle (rq : request) (db : Db) : Db * response :=
  match rq with
  | Register username => post_register username db
  | PostFinances userId body => post_finances userId body db
  | PostExpense userId body => post_expenses userId body db
  | PostIncome userId body => post_incomes userId body db
  | PostPlace userId body => post_places userId body db
  end.

Definition run (rqs : list request) (db : Db) : Db :=
  fold_left (fun d rq => fst (handle rq d)) rqs db.

(** The identifiers in use among one owner's entries of all three kinds,
    which is what the specification's duplicate-identifier rule speaks of. *)
Definition owner_ids (userId : Z) (db : Db) : list string :=
  (row_id <$> filter (fun r => user_id r = userId) (expenses db))
  ++ (row_id <$> filter (fun r => user_id r = userId) (incomes db))
  ++ (row_id <$> filter (fun r => user_id r = userId) (places db)).

(** The owner has no [finances] row, or the row registration gave them. *)
Definition unset_or_default (userId : Z) (db : Db) : Prop :=
  finances db !! userId = None \/
  finances db !! userId = Some Finances.default.

(** One owner's rows of a table, most recently appended first, which is the
    order the specification gives for the listings. *)
Definition newest_first {E} (userId : Z) (t : list (row E)) : list (row E) :=
  rev (filter (fun r => user_id r = userId) t).

(** What a listing [l] of the table [t] for an owner satisfies: it holds
    exactly the owner's rows, by descending identifier, and is newest first
    when the rows came in with increasing identifiers. *)
Definition listed_by_id_desc {E} `{Entry E} (userId : Z)
    (t l : list (row E)) : Prop :=
  l ≡ₚ filter (fun r => user_id r = userId) t /\
  StronglySorted id_desc l /\
  (Sorted id_lt t -> l = newest_first userId t).

(** *** The [authenticate] middleware *)

(** The character of the separator [" "]. *)
Definition space : Ascii.ascii :=
  match " " with
  | String c _ => c
  | EmptyString => Ascii.zero
  end.

(** [s.split(" ")]: the pieces between the spaces, empty ones included. *)
Fixpoint split_space (s : string) : list string :=
  match s with
  | EmptyString => [EmptyString]
  | String c s' =>
      if Ascii.eqb c space then EmptyString :: split_space s'
      else match split_space s' with
           | w :: ws => String c w :: ws
           | [] => [String c EmptyString]
           end
  end.

Section Authenticate.
(** [jwt.verify(token, JWT_SECRET)] followed by [decoded.userId]; [None] when
    it throws.  The library is not part of the sources. *)
Variable verify : string -> option Z.

(** [authorization] is the request header of that name, if any.  The result
    is the [req.userId] handed to the route, or the reply that ends the
    request. *)
Definition authenticate (authorization : option string) : Z + response :=
  match authorization with
  | None => inr (json_error 401 "Unauthorized")
  | Some header =>
      match split_space header !! 1%nat with
      | None => inr (json_error 401 "Unauthorized")
      | Some token =>
          if String.eqb token "" then inr (json_error 401 "Unauthorized")
          else match verify token with
               | Some userId => inl userId
               | None => inr (json_error 401 "Invalid token")
               end
      end
  end.
End Authenticate.

(** The text has no space in it. *)
Definition no_space (s : string) : Prop :=
  Forall (fun c => c <> space) (list_ascii_of_string s).

(** The [finances] table has a row for exactly the registered users. *)
Definition finances_match_users (db : Db) : Prop :=
  forall u, is_Some (finances db !! u) <-> u ∈ Users.id <$> users db.

(** The users carry the ids 1, 2, ... in order, and distinct usernames. *)
Definition users_numbered (db : Db) : Prop :=
  Users.id <$> users db = Z.of_nat <$> seq 1 (length (users db)) /\
  NoDup (Users.username <$> users db).

(** No identifier occurs twice in a table; across tables it may. *)
Definition ids_unique (db : Db) : Prop :=
  NoDup (row_id <$> expenses db) /\
  NoDup (row_id <$> incomes db) /\
  NoDup (row_id <$> places db).

(** Every entry belongs to a registered user. *)
Definition owners_registered (db : Db) : Prop :=
  (forall r, r ∈ expenses db -> user_id r ∈ Users.id <$> users db) /\
  (forall r, r ∈ incomes db -> user_id r ∈ Users.id <$> users db) /\
  (forall r, r ∈ places db -> user_id r ∈ Users.id <$> users db).

(** The databases the server can be in: it starts empty, and only requests
    change it. *)
Definition reached (db : Db) : Prop :=
  exists fk rqs, db = run rqs (empty_db fk).

(** Every table of [db'] starts with the rows of [db], unchanged. *)
Definition extends (db db' : Db) : Prop :=
  users db `prefix_of` users db' /\
  expenses db `prefix_of` expenses db' /\
  incomes db `prefix_of` incomes db' /\
  places db `prefix_of` places db'.

(** The owner a data request acts for. *)
Definition request_owner (rq : request) : option Z :=
  match rq with
  | Register _ => None
  | PostFinances userId _ | PostExpense userId _ | PostIncome userId _
  | PostPlace userId _ => Some userId
  end.

(** The identifiers of the registered users. *)
Definition user_ids (db : Db) : list Z := Users.id <$> users db.

End Server.

(** ** src/App.tsx: state *)

Module App.

(** The [useState] cells of the [App] component that the calculation reads:
    the eight fixed finances and the three entry lists. *)
Record AppState := mkAppState {
  totalBudget : Z;
  platinumTicket : Z;
  pendingPlatinum : Z;
  flightTotal : Z;
  myFlightShare : Z;
  stay : Z;
  expectedIncoming : Z;
  baseSavings : Z;
  expenses : list Expense.t;
  incomes : list Income.t;
  places : list Place.t
}.

(** *** Calculations *)

Definition tripExpenses (st : AppState) : list Expense.t :=
  List.filter (fun e => String.eqb (Expense.accountId e) "trip") (expenses st).
Definition savingsExpenses (st : AppState) : list Expense.t :=
  List.filter (fun e => String.eqb (Expense.accountId e) "savings") (expenses st).
Definition tripIncomes (st : AppState) : list Income.t :=
  List.filter (fun i => String.eqb (Income.accountId i) "trip") (incomes st).
Definition savingsIncomes (st : AppState) : list Income.t :=
  List.filter (fun i => String.eqb (Income.accountId i) "savings") (incomes st).

(** The formulas in exact arithmetic; [Double] below has them as they run.

    [xs.reduce((sum, e) => sum + e.amount, 0)] *)
Definition tripDynamicSpent (st : AppState) : Z :=
  fold_left (fun sum e => sum + Expense.amount e) (tripExpenses st) 0.
Definition savingsDynamicSpent (st : AppState) : Z :=
  fold_left (fun sum e => sum + Expense.amount e) (savingsExpenses st) 0.
Definition tripDynamicIncome (st : AppState) : Z :=
  fold_left (fun sum i => sum + Income.amount i) (tripIncomes st) 0.
Definition savingsDynamicIncome (st : AppState) : Z :=
  fold_left (fun sum i => sum + Income.amount i) (savingsIncomes st) 0.

(** Trip math *)
Definition tripEffectiveSpent (st : AppState) : Z :=
  platinumTicket st - pendingPlatinum st + myFlightShare st + stay st
  + tripDynamicSpent st.
Definition tripTotalIncoming (st : AppState) : Z :=
  expectedIncoming st + tripDynamicIncome st.
Definition tripRemainingBalance (st : AppState) : Z :=
  totalBudget st - tripEffectiveSpent st - pendingPlatinum st
  + tripTotalIncoming st.
(** [Math.max(0, tripRemainingBalance / 3)], with the real quotient *)
Definition safeDailySpend (st : AppState) : Q :=
  Qmax 0 (inject_Z (tripRemainingBalance st) / 3).

(** Savings math *)
Definition totalSavingsBalance (st : AppState) : Z :=
  baseSavings st + savingsDynamicIncome st - savingsDynamicSpent st.

(** The nine figures the calculation block derives, in source order. *)
Record Figures := mkFigures {
  f_tripDynamicSpent : Z;
  f_savingsDynamicSpent : Z;
  f_tripDynamicIncome : Z;
  f_savingsDynamicIncome : Z;
  f_tripEffectiveSpent : Z;
  f_tripTotalIncoming : Z;
  f_tripRemainingBalance : Z;
  f_safeDailySpend : Q;
  f_totalSavingsBalance : Z
}.

Definition figures (st : AppState) : Figures :=
  mkFigures (tripDynamicSpent st) (savingsDynamicSpent st)
            (tripDynamicIncome st) (savingsDynamicIncome st)
            (tripEffectiveSpent st) (tripTotalIncoming st)
            (tripRemainingBalance st) (safeDailySpend st)
            (totalSavingsBalance st).

(** State updates used below: replacing the entry lists, as [setExpenses],
    [setIncomes] and [setPlaces] do, and one fixed cell. *)
Definition setExpenses (es : list Expense.t) (st : AppState) : AppState :=
  mkAppState (totalBudget st) (platinumTicket st) (pendingPlatinum st)
             (flightTotal st) (myFlightShare st) (stay st)
             (expectedIncoming st) (baseSavings st)
             es (incomes st) (places st).
Definition setIncomes (ins : list Income.t) (st : AppState) : AppState :=
  mkAppState (totalBudget st) (platinumTicket st) (pendingPlatinum st)
             (flightTotal st) (myFlightShare st) (stay st)
             (expectedIncoming st) (baseSavings st)
             (expenses st) ins (places st).
Definition setPlaces (ps : list Place.t) (st : AppState) : AppState :=
  mkAppState (totalBudget st) (platinumTicket st) (pendingPlatinum st)
             (flightTotal st) (myFlightShare st) (stay st)
             (expectedIncoming st) (baseSavings st)
             (expenses st) (incomes st) ps.
Definition setFlightTotal (v : Z) (st : AppState) : AppState :=
  mkAppState (totalBudget st) (platinumTicket st) (pendingPlatinum st)
             v (myFlightShare st) (stay st)
             (expectedIncoming st) (baseSavings st)
             (expenses st) (incomes st) (places st).

(** The state updates of [handleAddExpense] and [handleAddIncome], which put
    the new entry in front: [setExpenses([newExp, ...expenses])]. *)
Definition handleAddExpense (newExp : Expense.t) (st : AppState) : AppState :=
  setExpenses (newExp :: expenses st) st.
Definition handleAddIncome (newInc : Income.t) (st : AppState) : AppState :=
  setIncomes (newInc :: incomes st) st.

(** The scenario of the specification's worked example. *)
Definition scenario : AppState :=
  mkAppState 30000 22500 11500 22500 11250 2000 11250 50000 [] [] [].

(** [x || 0] on a field that may be missing from the object. *)
Definition or0 (x : option Z) : Z :=
  match x with
  | Some n => if n =? 0 then 0 else n
  | None => 0
  end.

(** [fetchData]: the state after a successful [GET /api/data].  The
    [finances] object and the three arrays of the reply are always truthy. *)
Definition fetchData (data : Server.Data) (st : AppState) : AppState :=
  let fin := Server.d_finances data in
  mkAppState (or0 (Server.Finances.totalBudget <$> fin))
             (or0 (Server.Finances.platinumTicket <$> fin))
             (or0 (Server.Finances.pendingPlatinum <$> fin))
             (or0 (Server.Finances.flightTotal <$> fin))
             (or0 (Server.Finances.myFlightShare <$> fin))
             (or0 (Server.Finances.stay <$> fin))
             (or0 (Server.Finances.expectedIncoming <$> fin))
             (or0 (Server.Finances.baseSavings <$> fin))
             (Server.entry <$> Server.d_expenses data)
             (Server.entry <$> Server.d_incomes data)
             (Server.entry <$> Server.d_places data).

(** The state a component starts from: every [useState(0)] and [useState([])]. *)
Definition initial : AppState := mkAppState 0 0 0 0 0 0 0 0 [] [] [].

(** The body [saveFinances] posts: the eight fixed cells. *)
Definition saveFinances (st : AppState) : Server.Finances.row :=
  Server.Finances.mk (totalBudget st) (platinumTicket st) (pendingPlatinum st)
                     (flightTotal st) (myFlightShare st) (stay st)
                     (expectedIncoming st) (baseSavings st).

(** [setPendingPlatinum] *)
Definition setPendingPlatinum (v : Z) (st : AppState) : AppState :=
  mkAppState (totalBudget st) (platinumTicket st) v
             (flightTotal st) (myFlightShare st) (stay st)
             (expectedIncoming st) (baseSavings st)
             (expenses st) (incomes st) (places st).

(** [getHeaders]: the [Authorization] header, [`Bearer ${token}`], where a
    [null] token prints as "null". *)
Definition getHeaders (token : option string) : string :=
  "Bearer " ++ match token with
               | Some t => t
               | None => "null"
               end.

(** [handleAddExpense], [handleAddIncome] and [handleAddPlace] as a whole, on
    the state of the component and the database behind the server: the POST,
    whose reply is not inspected, then the state update. *)
Definition submitExpense (userId : Z) (newExp : Expense.t)
    (c : AppState * Server.Db) : AppState * Server.Db :=
  (handleAddExpense newExp (fst c),
   fst (Server.post_expenses userId newExp (snd c))).
Definition submitIncome (userId : Z) (newInc : Income.t)
    (c : AppState * Server.Db) : AppState * Server.Db :=
  (handleAddIncome newInc (fst c),
   fst (Server.post_incomes userId newInc (snd c))).
Definition handleAddPlace (newPlace : Place.t) (st : AppState) : AppState :=
  setPlaces (newPlace :: places st) st.
Definition submitPlace (userId : Z) (newPlace : Place.t)
    (c : AppState * Server.Db) : AppState * Server.Db :=
  (handleAddPlace newPlace (fst c),
   fst (Server.post_places userId newPlace (snd c))).

(** *** ExpensesTab *)

(** [filteredExpenses] and [filteredIncomes] for the chosen [filter]. *)
Definition filteredExpenses (filter : string) (st : AppState)
  : list Expense.t :=
  if String.eqb filter "all" then expenses st
  else List.filter (fun e => String.eqb (Expense.accountId e) filter)
                   (expenses st).
Definition filteredIncomes (filter : string) (st : AppState)
  : list Income.t :=
  if String.eqb filter "all" then incomes st
  else List.filter (fun i => String.eqb (Income.accountId i) filter)
                   (incomes st).

(** *** PlannerTab *)

Record Planner := mkPlanner {
  foodPct : Z;
  alcoholPct : Z;
  transportPct : Z;
  metroRides : Z;
  autoRides : Z;
  cabRides : Z
}.

(** The [useState] defaults of the tab. *)
Definition planner0 : Planner := mkPlanner 40 20 20 4 2 1.

Definition bufferPct (p : Planner) : Z :=
  100 - foodPct p - alcoholPct p - transportPct p.
Definition transportCost (p : Planner) : Z :=
  metroRides p * 40 + autoRides p * 150 + cabRides p * 400.

(** The buttons of a [RideEstimator]: [setCount(Math.max(0, count - 1))] and
    [setCount(count + 1)]. *)
Definition decrement (count : Z) : Z := Z.max 0 (count - 1).
Definition increment (count : Z) : Z := count + 1.

(** What the user can do on the tab: move a slider to a value, press a
    button of one of the three estimators. *)
Inductive PlannerEvent :=
| SetFoodPct (v : Z)
| SetAlcoholPct (v : Z)
| SetTransportPct (v : Z)
| MetroMinus | MetroPlus
| AutoMinus | AutoPlus
| CabMinus | CabPlus.

Definition planner_step (p : Planner) (ev : PlannerEvent) : Planner :=
  match ev with
  | SetFoodPct v =>
      mkPlanner v (alcoholPct p) (transportPct p)
                (metroRides p) (autoRides p) (cabRides p)
  | SetAlcoholPct v =>
      mkPlanner (foodPct p) v (transportPct p)
                (metroRides p) (autoRides p) (cabRides p)
  | SetTransportPct v =>
      mkPlanner (foodPct p) (alcoholPct p) v
                (metroRides p) (autoRides p) (cabRides p)
  | MetroMinus =>
      mkPlanner (foodPct p) (alcoholPct p) (transportPct p)
                (decrement (metroRides p)) (autoRides p) (cabRides p)
  | MetroPlus =>
      mkPlanner (foodPct p) (alcoholPct p) (transportPct p)
                (increment (metroRides p)) (autoRides p) (cabRides p)
  | AutoMinus =>
      mkPlanner (foodPct p) (alcoholPct p) (transportPct p)
                (metroRides p) (decrement (autoRides p)) (cabRides p)
  | AutoPlus =>
      mkPlanner (foodPct p) (alcoholPct p) (transportPct p)
                (metroRides p) (increment (autoRides p)) (cabRides p)
  | CabMinus =>
      mkPlanner (foodPct p) (alcoholPct p) (transportPct p)
                (metroRides p) (autoRides p) (decrement (cabRides p))
  | CabPlus =>
      mkPlanner (foodPct p) (alcoholPct p) (transportPct p)
                (metroRides p) (autoRides p) (increment (cabRides p))
  end.

(** *** ExploreTab *)

Definition streetFood (st : AppState) : list Place.t :=
  List.filter (fun p => String.eqb (Place.category p) "Street Food") (places st).
Definition casualDining (st : AppState) : list Place.t :=
  List.filter (fun p => String.eqb (Place.category p) "Casual Dining") (places st).
Definition premium (st : AppState) : list Place.t :=
  List.filter (fun p => String.eqb (Place.category p) "Premium") (places st).
Definition hotspots (st : AppState) : list Place.t :=
  List.filter (fun p => String.eqb (Place.category p) "Hotspot") (places st).

(** The four values of [PlaceCategory]. *)
Definition known_category (p : Place.t) : Prop :=
  Place.category p = "Street Food" \/ Place.category p = "Casual Dining" \/
  Place.category p = "Premium" \/ Place.category p = "Hotspot".

(** No ride count is negative. *)
Definition rides_nonneg (p : Planner) : Prop :=
  0 <= metroRides p /\ 0 <= autoRides p /\ 0 <= cabRides p.

(** *** Session *)

Inductive Screen := splash | auth | main.

(** The cells [appState], [token] and [username], and the two items of
    [localStorage] they mirror. *)
Record Session := mkSession {
  appState : Screen;
  token : option string;
  username : option string;
  stored_token : option string;
  stored_username : option string
}.

(** The component mounts on the splash screen with what the storage holds. *)
Definition mount (stored_token stored_username : option string) : Session :=
  mkSession splash stored_token stored_username stored_token stored_username.

(** A token is truthy when it is a non-empty string. *)
Definition truthy (t : option string) : bool :=
  match t with
  | Some s => negb (String.eqb s "")
  | None => false
  end.

Inductive SessionEvent :=
| SplashTimer                              (* the 2000 ms timer of the effect *)
| AuthOk (tok user : string)               (* [handleAuth], reply ok *)
| AuthRejected                             (* [handleAuth], reply not ok *)
| Logout                                   (* [handleLogout] *)
| Unauthorized.                            (* [fetchData] got a 401 *)

Definition handleLogout (s : Session) : Session :=
  mkSession auth None None None None.

Definition session_step (s : Session) (ev : SessionEvent) : Session :=
  match ev with
  | SplashTimer =>
      mkSession (if truthy (token s) then main else auth)
                (token s) (username s) (stored_token s) (stored_username s)
  | AuthOk tok user => mkSession main (Some tok) (Some user) (Some tok) (Some user)
  | AuthRejected => s
  | Logout => handleLogout s
  | Unauthorized => handleLogout s
  end.

(** The three lists of the component hold the entries the server has for
    the user, in some order. *)
Definition in_sync (userId : Z) (st : AppState) (db : Server.Db) : Prop :=
  expenses st ≡ₚ Server.entry <$> Server.d_expenses (Server.get_data userId db) /\
  incomes st ≡ₚ Server.entry <$> Server.d_incomes (Server.get_data userId db) /\
  places st ≡ₚ Server.entry <$> Server.d_places (Server.get_data userId db).

(** What holds of a session at all times: the main screen is only shown
    with a token, and the two cells agree with the storage. *)
Definition session_ok (s : Session) : Prop :=
  (appState s = main -> is_Some (token s)) /\
  token s = stored_token s /\ username s = stored_username s.

End App.

(** ** src/App.tsx: the calculation in binary64

    The figures as the component computes them.  Every cell and every amount
    is a JavaScript number, a binary64 double, and [+], [-] and [/] round to
    the nearest double, ties to even.  The doubles are Rocq's primitive
    floats; [Prim2SF] gives the sign, mantissa and exponent of one. *)

Module Double.
Import App.

(** The double that holds a whole number: the nearest one, ties to even
    (infinite from 2^1024 on), as [Number(e.target.value)] and [JSON.parse]
    give for the digits of an integer. *)
Definition num (z : Z) : float :=
  SF2Prim (binary_normalize prec emax z 0 false).

(** [Math.max(x, y)]: NaN when an argument is NaN, otherwise the larger one,
    with +0 above -0. *)
Definition Math_max (x y : float) : float :=
  if is_nan x || is_nan y then nan
  else if (x <? y)%float then y
  else if (y <? x)%float then x
  else if get_sign x then y else x.

(** [xs.reduce((sum, e) => sum + e.amount, 0)] *)
Definition tripDynamicSpent (st : AppState) : float :=
  fold_left (fun sum e => (sum + num (Expense.amount e))%float)
            (tripExpenses st) 0%float.
Definition savingsDynamicSpent (st : AppState) : float :=
  fold_left (fun sum e => (sum + num (Expense.amount e))%float)
            (savingsExpenses st) 0%float.
Definition tripDynamicIncome (st : AppState) : float :=
  fold_left (fun sum i => (sum + num (Income.amount i))%float)
            (tripIncomes st) 0%float.
Definition savingsDynamicIncome (st : AppState) : float :=
  fold_left (fun sum i => (sum + num (Income.amount i))%float)
            (savingsIncomes st) 0%float.

(** Trip math *)
Definition tripEffectiveSpent (st : AppState) : float :=
  (num (platinumTicket st) - num (pendingPlatinum st) + num (myFlightShare st)
   + num (stay st) + tripDynamicSpent st)%float.
Definition tripTotalIncoming (st : AppState) : float :=
  (num (expectedIncoming st) + tripDynamicIncome st)%float.
Definition tripRemainingBalance (st : AppState) : float :=
  (num (totalBudget st) - tripEffectiveSpent st - num (pendingPlatinum st)
   + tripTotalIncoming st)%float.
(** [Math.max(0, tripRemainingBalance / 3)] *)
Definition safeDailySpend (st : AppState) : float :=
  Math_max 0%float (tripRemainingBalance st / 3)%float.

(** Savings math *)
Definition totalSavingsBalance (st : AppState) : float :=
  (num (baseSavings st) + savingsDynamicIncome st - savingsDynamicSpent st)%float.

(** The nine figures the calculation block derives, in source order. *)
Record Figures := mkFigures {
  f_tripDynamicSpent : float;
  f_savingsDynamicSpent : float;
  f_tripDynamicIncome : float;
  f_savingsDynamicIncome : float;
  f_tripEffectiveSpent : float;
  f_tripTotalIncoming : float;
  f_tripRemainingBalance : float;
  f_safeDailySpend : float;
  f_totalSavingsBalance : float
}.

Definition figures (st : AppState) : Figures :=
  mkFigures (tripDynamicSpent st) (savingsDynamicSpent st)
            (tripDynamicIncome st) (savingsDynamicIncome st)
            (tripEffectiveSpent st) (tripTotalIncoming st)
            (tripRemainingBalance st) (safeDailySpend st)
            (totalSavingsBalance st).

(** *** Reading a double *)

(** The whole number a double holds, when it is finite and whole. *)
Definition intval (x : float) : option Z :=
  match Prim2SF x with
  | S754_zero _ => Some 0
  | S754_finite s m e =>
      if 0 <=? e then Some (cond_Zopp s (Zpos m * 2 ^ e))
      else if Zpos m mod 2 ^ (- e) =? 0
           then Some (cond_Zopp s (Zpos m / 2 ^ (- e)))
           else None
  | _ => None
  end.

(** The rational a finite double holds, in lowest terms: the mantissa times
    or over a power of two. *)
Definition value (x : float) : option Q :=
  match Prim2SF x with
  | S754_zero _ => Some 0%Q
  | S754_finite s m e =>
      Some (Qred (if 0 <=? e then inject_Z (cond_Zopp s (Zpos m * 2 ^ e))
                  else cond_Zopp s (Zpos m) # Z.to_pos (2 ^ (- e))))
  | _ => None
  end.

(** *** Magnitudes

    What the trip figures and the savings figure can reach in absolute
    value: the sum of the magnitudes of everything they add or subtract
    ([pendingPlatinum] is subtracted twice). *)
Definition trip_magnitude (st : AppState) : Z :=
  Z.abs (totalBudget st) + Z.abs (platinumTicket st)
  + 2 * Z.abs (pendingPlatinum st) + Z.abs (myFlightShare st)
  + Z.abs (stay st) + Z.abs (expectedIncoming st)
  + total (fun e => Z.abs (Expense.amount e)) (tripExpenses st)
  + total (fun i => Z.abs (Income.amount i)) (tripIncomes st).
Definition savings_magnitude (st : AppState) : Z :=
  Z.abs (baseSavings st)
  + total (fun e => Z.abs (Expense.amount e)) (savingsExpenses st)
  + total (fun i => Z.abs (Income.amount i)) (savingsIncomes st).

(** Below 2^53 every whole number is a double, and so is every
    intermediate result of the calculation. *)
Definition safe_integers (st : AppState) : Prop :=
  trip_magnitude st < 2 ^ 53 /\ savings_magnitude st < 2 ^ 53.

End Double.

(** ** Binary64: how a whole number sits in a double

    Notions the proofs about [Double] use; they are not part of the
    component. *)

Module Repr.

(** The exponent binary64 gives a number of [x] binary digits: 53 digits of
    mantissa, and no exponent below -1074. *)
Definition fexp64 (x : Z) : Z := Z.max (x - 53) (-1074).

(** The sign, mantissa and exponent of the double that holds a whole number
    below 2^53 in magnitude: the mantissa is the number shifted up to 53
    binary digits. *)
Definition SFpos (s : bool) (p : positive) : spec_float :=
  let d := Zpos (digits2_pos p) in
  S754_finite s (Z.to_pos (Zpos p * 2 ^ (53 - d))) (d - 53).
Definition SFint (z : Z) : spec_float :=
  match z with
  | 0 => S754_zero false
  | Zpos p => SFpos false p
  | Zneg p => SFpos true p
  end.


End Repr.

(** ** Sample data for the examples *)

Definition momos : Expense.t :=
  Expense.mk "1700000000001" "Momos" 120 "Food" "28 Mar" "01:15 PM" "trip".
Definition metro_card : Expense.t :=
  Expense.mk "1700000000002" "Metro card" 380 "Metro" "28 Mar" "02:40 PM" "trip".
Definition stipend : Income.t :=
  Income.mk "1700000000003" "March stipend" 2000 "Internship stipend" "28 Mar"
            "savings".
Definition refund : Income.t :=
  Income.mk "1700000000004" "Cab split" 150 "Friend reimbursement" "28 Mar"
            "trip".
Definition karims : Place.t := Place.mk "1700000000005" "Karim's" "Casual Dining".
(** An expense created in the same millisecond as [stipend]: both identifiers
    are [Date.now().toString()]. *)
Definition chai : Expense.t :=
  Expense.mk "1700000000003" "Chai" 20 "Food" "28 Mar" "03:05 PM" "trip".
(** Identifiers of different lengths: "9" is above "10" bytewise. *)
Definition early : Expense.t :=
  Expense.mk "9" "Auto" 60 "Auto" "28 Mar" "09:00 AM" "trip".
Definition late : Expense.t :=
  Expense.mk "10" "Lassi" 50 "Food" "28 Mar" "09:30 AM" "trip".

(** Whole numbers at the edge of what a double holds exactly: 2^53 and
    2^53 - 1 rupees, and two expenses of one rupee. *)
Definition charter : Expense.t :=
  Expense.mk "1700000000010" "Charter" 9007199254740992 "Misc" "28 Mar"
             "10:00 AM" "trip".
Definition charter_less_one : Expense.t :=
  Expense.mk "1700000000011" "Charter" 9007199254740991 "Misc" "28 Mar"
             "10:05 AM" "trip".
Definition tip_a : Expense.t :=
  Expense.mk "1700000000012" "Tip" 1 "Misc" "28 Mar" "10:10 AM" "trip".
Definition tip_b : Expense.t :=
  Expense.mk "1700000000013" "Tip" 1 "Misc" "28 Mar" "10:15 AM" "trip".

(** The same three expenses in two orders. *)
Definition charter_first : App.AppState :=
  App.setExpenses [charter; tip_a; tip_b] App.initial.
Definition charter_last : App.AppState :=
  App.setExpenses [tip_a; tip_b; charter] App.initial.

(** One large expense, then two small ones added in front of it. *)
Definition before_tips : App.AppState :=
  App.setExpenses [charter_less_one] App.initial.
Definition after_tips : App.AppState :=
  App.handleAddExpense tip_b (App.handleAddExpense tip_a before_tips).

(** A budget of 2^53 - 1 with 2 pending, and nothing else. *)
Definition budget_at_limit : App.AppState :=
  App.mkAppState 9007199254740991 0 2 0 0 0 0 0 [] [] [].

(** Two registered users; the first has one income and one expense. *)
Definition two_users : Server.Db :=
  Server.run
    [Server.Register "asha"; Server.Register "ravi";
     Server.PostIncome 1 stipend; Server.PostExpense 1 momos]
    (Server.empty_db true).

(** One registered user who appended [momos], then [metro_card]. *)
Definition one_user : Server.Db :=
  Server.run
    [Server.Register "asha"; Server.PostExpense 1 momos;
     Server.PostExpense 1 metro_card]
    (Server.empty_db true).

(** One registered user who appended [early], then [late]. *)
Definition nine_then_ten : Server.Db :=
  Server.run
    [Server.Register "asha"; Server.PostExpense 1 early;
     Server.PostExpense 1 late]
    (Server.empty_db true).

(** ** The effect of a request *)

(** The three ways a registration can go. *)
Inductive register_outcome (username : string) (db : Server.Db)
  : Server.Db * Server.response -> Prop :=
| register_taken :
    username ∈ Server.Users.username <$> Server.users db ->
    register_outcome username db
      (db, Server.json_error 400 "Username already exists")
| register_done :
    username ∉ Server.Users.username <$> Server.users db ->
    Server.finances db !! Server.lastInsertRowid (Server.users db) = None ->
    register_outcome username db
      (Server.mkDb (Server.foreign_keys db)
         (Server.users db
          ++ [Server.Users.mk (Server.lastInsertRowid (Server.users db))
                              username])
         (<[Server.lastInsertRowid (Server.users db) := Server.Finances.default]>
            (Server.finances db))
         (Server.expenses db) (Server.incomes db) (Server.places db),
       Server.json_token (Server.lastInsertRowid (Server.users db)) username)
| register_half :
    username ∉ Server.Users.username <$> Server.users db ->
    is_Some (Server.finances db !! Server.lastInsertRowid (Server.users db)) ->
    register_outcome username db
      (Server.set_users
         (Server.users db
          ++ [Server.Users.mk (Server.lastInsertRowid (Server.users db))
                              username]) db,
       Server.json_error 500 "Server error").

(** What a request leaves of the database: [Register] touches [users] and
    [finances], [PostFinances] touches [finances], an append touches its own
    table, by adding one row at the end or not at all. *)
Inductive effect (db : Server.Db) : Server.request -> Server.Db -> Prop :=
| effect_none rq : effect db rq db
| effect_register username :
    username ∉ Server.Users.username <$> Server.users db ->
    forall fin,
    (fin = Server.finances db /\
     is_Some (Server.finances db !! Server.lastInsertRowid (Server.users db))
     \/ fin = <[Server.lastInsertRowid (Server.users db)
                := Server.Finances.default]> (Server.finances db) /\
        Server.finances db !! Server.lastInsertRowid (Server.users db) = None) ->
    effect db (Server.Register username)
      (Server.mkDb (Server.foreign_keys db)
         (Server.users db
          ++ [Server.Users.mk (Server.lastInsertRowid (Server.users db))
                              username])
         fin (Server.expenses db) (Server.incomes db) (Server.places db))
| effect_finances userId body :
    is_Some (Server.finances db !! userId) ->
    effect db (Server.PostFinances userId body)
      (Server.set_finances (<[userId := body]> (Server.finances db)) db)
| effect_expense userId body :
    Expense.id body ∉ Server.row_id <$> Server.expenses db ->
    Server.references_user db userId = true ->
    effect db (Server.PostExpense userId body)
      (Server.set_expenses
         (Server.expenses db ++ [Server.mkRow userId body]) db)
| effect_income userId body :
    Income.id body ∉ Server.row_id <$> Server.incomes db ->
    Server.references_user db userId = true ->
    effect db (Server.PostIncome userId body)
      (Server.set_incomes
         (Server.incomes db ++ [Server.mkRow userId body]) db)
| effect_place userId body :
    Place.id body ∉ Server.row_id <$> Server.places db ->
    Server.references_user db userId = true ->
    effect db (Server.PostPlace userId body)
      (Server.set_places
         (Server.places db ++ [Server.mkRow userId body]) db).

(** * Properties of the balance calculator *)

Section Sums.
Context {A : Type} (amount : A -> Z).

Lemma fold_sum_acc (l : list A) (a : Z) :
  fold_left (fun sum e => sum + amount e) l a = a + total amount l.
Proof.
  unfold total. revert a.
  induction l as [|x l IH]; intros a; simpl; [lia|].
  rewrite (IH (a + amount x)), (IH (0 + amount x)). lia.
Qed.

Lemma total_cons (x : A) (l : list A) :
  total amount (x :: l) = amount x + total amount l.
Proof. unfold total at 1. simpl. rewrite fold_sum_acc. lia. Qed.

Lemma total_app (l1 l2 : list A) :
  total amount (l1 ++ l2) = total amount l1 + total amount l2.
Proof.
  induction l1 as [|x l1 IH]; simpl; [reflexivity|].
  rewrite !total_cons, IH. lia.
Qed.

Lemma total_Permutation (l1 l2 : list A) :
  Permutation l1 l2 -> total amount l1 = total amount l2.
Proof.
  induction 1 as [|x l1 l2 _ IH|x y l|l1 l2 l3 _ IH1 _ IH2].
  - reflexivity.
  - rewrite !total_cons, IH. reflexivity.
  - rewrite !total_cons. lia.
  - congruence.
Qed.

Lemma filter_Permutation_bool (p : A -> bool) (l1 l2 : list A) :
  Permutation l1 l2 -> Permutation (List.filter p l1) (List.filter p l2).
Proof.
  induction 1 as [|x l1 l2 _ IH|x y l|l1 l2 l3 _ IH1 _ IH2]; simpl.
  - constructor.
  - destruct (p x); [constructor|]; exact IH.
  - destruct (p x), (p y); try reflexivity. constructor.
  - etransitivity; eassumption.
Qed.

Lemma filter_all (p : A -> bool) (l : list A) :
  Forall (fun x => p x = true) l -> List.filter p l = l.
Proof.
  induction 1 as [|x l Hx _ IH]; simpl; [reflexivity|].
  rewrite Hx, IH. reflexivity.
Qed.
End Sums.

(** * Binary64 arithmetic on whole numbers

    Sums and differences of whole numbers are exact in binary64 as long as
    the operands and the result stay below 2^53 in magnitude. *)

Section Binary64.
Import Double Repr.

(** ** Binary digits *)

Lemma digits2_size (p : positive) : digits2_pos p = Pos.size p.
Proof. induction p; simpl; congruence. Qed.

Lemma size_bounds (p : positive) :
  2 ^ (Zpos (Pos.size p) - 1) <= Zpos p < 2 ^ Zpos (Pos.size p).
Proof.
  induction p as [p IH|p IH|].
  - simpl Pos.size. rewrite Pos2Z.inj_succ.
    replace (Z.succ (Zpos (Pos.size p)) - 1) with (Z.succ (Zpos (Pos.size p) - 1)) by lia.
    rewrite !Z.pow_succ_r by lia. lia.
  - simpl Pos.size. rewrite Pos2Z.inj_succ.
    replace (Z.succ (Zpos (Pos.size p)) - 1) with (Z.succ (Zpos (Pos.size p) - 1)) by lia.
    rewrite !Z.pow_succ_r by lia. lia.
  - simpl. lia.
Qed.

Lemma size_unique (p : positive) (d : Z) :
  2 ^ (d - 1) <= Zpos p < 2 ^ d -> Zpos (Pos.size p) = d.
Proof.
  intros [Hlo Hhi]. pose proof (size_bounds p) as [Slo Shi].
  assert (0 < d).
  { destruct (Z.ltb_spec 0 d); [assumption|].
    assert (2 ^ d <= 2 ^ 0) by (apply Z.pow_le_mono_r; lia).
    simpl in *; lia. }
  destruct (Z.lt_trichotomy (Zpos (Pos.size p)) d) as [Hlt|[Heq|Hgt]]; [|exact Heq|].
  - assert (2 ^ Zpos (Pos.size p) <= 2 ^ (d - 1)) by (apply Z.pow_le_mono_r; lia). lia.
  - assert (2 ^ d <= 2 ^ (Zpos (Pos.size p) - 1)) by (apply Z.pow_le_mono_r; lia). lia.
Qed.

Lemma Zdigits2_mul_pow (z k : Z) :
  z <> 0 -> 0 <= k -> Zdigits2 (z * 2 ^ k) = Zdigits2 z + k.
Proof.
  intros Hz Hk.
  assert (Hpos : forall p, Zdigits2 (Zpos p * 2 ^ k) = Zpos (digits2_pos p) + k).
  { intros p. assert (0 < 2 ^ k) by (apply Z.pow_pos_nonneg; lia).
    destruct (Zpos p * 2 ^ k) as [|q|q] eqn:Hq; try lia.
    change (Zdigits2 (Zpos q)) with (Zpos (digits2_pos q)).
    rewrite (digits2_size q), (digits2_size p). apply size_unique. rewrite <- Hq.
    pose proof (size_bounds p) as [Slo Shi].
    replace (Zpos (Pos.size p) + k - 1) with (Zpos (Pos.size p) - 1 + k) by lia.
    rewrite !Z.pow_add_r by lia. nia. }
  destruct z as [|p|p]; [congruence|apply Hpos|].
  change (Z.neg p) with (- Zpos p). rewrite Z.mul_opp_l.
  specialize (Hpos p).
  assert (0 < 2 ^ k) by (apply Z.pow_pos_nonneg; lia).
  destruct (Zpos p * 2 ^ k) as [|q|q] eqn:Hq; try lia.
  exact Hpos.
Qed.

(** ** Shifting a mantissa up and down *)

Lemma iter_xO (p d : positive) :
  Zpos (Pos.iter xO p d) = Zpos p * 2 ^ Zpos d.
Proof.
  induction d as [|d IH] using Pos.peano_ind.
  - simpl. lia.
  - rewrite Pos.iter_succ, Pos2Z.inj_succ, Z.pow_succ_r by lia.
    rewrite Pos2Z.inj_xO, IH. lia.
Qed.

Lemma shl_align_value (mx : positive) (ex ex' : Z) :
  ex' <= ex ->
  Zpos (fst (shl_align mx ex ex')) = Zpos mx * 2 ^ (ex - ex') /\
  snd (shl_align mx ex ex') = ex'.
Proof.
  intros Hle. unfold shl_align.
  destruct (ex' - ex) as [|d|d] eqn:Hd; try lia.
  - assert (ex = ex') by lia. subst. rewrite Z.sub_diag. cbn [fst snd]. lia.
  - cbn [fst snd]. change (PosDef.Pos.iter xO mx d) with (Pos.iter xO mx d).
    rewrite iter_xO. replace (ex - ex') with (Zpos d) by lia. lia.
Qed.

Lemma shl_align_keep (mx : positive) (ex ex' : Z) :
  ex <= ex' -> shl_align mx ex ex' = (mx, ex).
Proof.
  intros Hle. unfold shl_align. destruct (ex' - ex) eqn:Hd; try reflexivity. lia.
Qed.

Lemma iter_pos_nat {A} (f : A -> A) (p : positive) (x : A) :
  SpecFloat.iter_pos f p x = Nat.iter (Pos.to_nat p) f x.
Proof.
  revert x. induction p as [p IH|p IH|]; intros x; cbn [SpecFloat.iter_pos].
  - rewrite !IH, Pos2Nat.inj_xI, Nat.iter_succ_r.
    replace (2 * Pos.to_nat p)%nat with (Pos.to_nat p + Pos.to_nat p)%nat by lia.
    rewrite Nat.iter_add. reflexivity.
  - rewrite !IH, Pos2Nat.inj_xO.
    replace (2 * Pos.to_nat p)%nat with (Pos.to_nat p + Pos.to_nat p)%nat by lia.
    rewrite Nat.iter_add. reflexivity.
  - reflexivity.
Qed.

Lemma shr_1_even (m : Z) :
  0 < m -> shr_1 (Build_shr_record (2 * m) false false) = Build_shr_record m false false.
Proof. destruct m; try lia. reflexivity. Qed.

Lemma iter_shr_exact (n : nat) (m : Z) :
  0 < m ->
  Nat.iter n shr_1 (Build_shr_record (m * 2 ^ Z.of_nat n) false false)
  = Build_shr_record m false false.
Proof.
  revert m. induction n as [|n IH]; intros m Hm.
  - simpl. f_equal. lia.
  - rewrite Nat.iter_succ_r.
    replace (m * 2 ^ Z.of_nat (S n)) with (2 * (m * 2 ^ Z.of_nat n))
      by (rewrite Nat2Z.inj_succ, Z.pow_succ_r by lia; lia).
    rewrite shr_1_even by (assert (0 < 2 ^ Z.of_nat n) by (apply Z.pow_pos_nonneg; lia); nia).
    apply IH, Hm.
Qed.

Lemma shr_exact (m e n : Z) :
  0 < m -> 0 <= n ->
  shr (Build_shr_record (m * 2 ^ n) false false) e n
  = (Build_shr_record m false false, e + n).
Proof.
  intros Hm Hn. unfold shr. destruct n as [|p|p]; try lia.
  - simpl. f_equal; [f_equal|]; lia.
  - rewrite iter_pos_nat. f_equal.
    rewrite <- (positive_nat_Z p). apply iter_shr_exact, Hm.
Qed.

(** ** Rounding a mantissa that already fits *)

Lemma fexp_64 (x : Z) : fexp prec emax x = fexp64 x.
Proof. reflexivity. Qed.

Lemma shr_fexp_exact (m e n : Z) :
  0 < m -> 0 <= n ->
  fexp64 (Zdigits2 (m * 2 ^ n) + e) = e + n ->
  shr_fexp prec emax (m * 2 ^ n) e loc_Exact
  = (Build_shr_record m false false, e + n).
Proof.
  intros Hm Hn Hexp. unfold shr_fexp. rewrite fexp_64, Hexp.
  replace (e + n - e) with n by lia.
  apply shr_exact; assumption.
Qed.

Lemma binary_round_aux_exact (s : bool) (m e n : Z) :
  0 < m -> 0 <= n ->
  fexp64 (Zdigits2 m + (e + n)) = e + n ->
  e + n <= 971 ->
  binary_round_aux prec emax s (m * 2 ^ n) e loc_Exact
  = S754_finite s (Z.to_pos m) (e + n).
Proof.
  intros Hm Hn Hexp Hmax. unfold binary_round_aux.
  rewrite shr_fexp_exact; try assumption.
  2:{ rewrite Zdigits2_mul_pow by lia. rewrite <- Hexp. f_equal. lia. }
  cbn [shr_m loc_of_shr_record round_nearest_even].
  replace m with (m * 2 ^ 0) at 1 by (simpl; lia).
  rewrite shr_fexp_exact; try lia.
  2:{ rewrite Z.pow_0_r, Z.mul_1_r, Z.add_0_r. exact Hexp. }
  cbn [shr_m]. rewrite Z.add_0_r.
  destruct m as [|p|p]; try lia.
  change (emax - prec) with 971.
  destruct (Z.leb_spec (e + n) 971); [reflexivity|lia].
Qed.

(** ** The double of a whole number below 2^53 *)

Lemma digits_le_53 (p : positive) :
  Zpos p < 2 ^ 53 -> 1 <= Zpos (digits2_pos p) <= 53.
Proof.
  intros Hp. rewrite digits2_size. pose proof (size_bounds p) as [Hlo _].
  split; [lia|].
  destruct (Z_le_gt_dec (Zpos (Pos.size p)) 53) as [|Hgt]; [assumption|].
  assert (2 ^ 53 <= 2 ^ (Zpos (Pos.size p) - 1)) by (apply Z.pow_le_mono_r; lia).
  lia.
Qed.

Lemma binary_round_exact (s : bool) (p q : positive) (k : Z) :
  Zpos p < 2 ^ 53 -> 0 <= k -> Zpos q = Zpos p * 2 ^ k ->
  binary_round prec emax s q (- k) = SFpos s p.
Proof.
  intros Hp Hk Hq. pose proof (digits_le_53 p Hp) as Hd.
  set (d := Zpos (digits2_pos p)) in *.
  assert (Hdq : Zpos (digits2_pos q) = d + k).
  { change (Zpos (digits2_pos q)) with (Zdigits2 (Zpos q)).
    rewrite Hq, Zdigits2_mul_pow by lia. reflexivity. }
  assert (Hm : 0 < Zpos p * 2 ^ (53 - d)).
  { assert (0 < 2 ^ (53 - d)) by (apply Z.pow_pos_nonneg; lia). nia. }
  assert (Hdm : Zdigits2 (Zpos p * 2 ^ (53 - d)) = 53).
  { rewrite Zdigits2_mul_pow by lia. change (Zdigits2 (Zpos p)) with d. lia. }
  unfold binary_round, SFpos. fold d. rewrite fexp_64, Hdq.
  replace (fexp64 (d + k + - k)) with (d - 53) by (unfold fexp64; lia).
  destruct (Z_le_gt_dec (d - 53) (- k)) as [Hle|Hgt].
  - pose proof (shl_align_value q (- k) (d - 53) Hle) as [Hv He].
    destruct (shl_align q (- k) (d - 53)) as [mz ez]. cbn [fst snd] in Hv, He. subst ez.
    replace (Zpos mz) with (Zpos p * 2 ^ (53 - d) * 2 ^ 0).
    2:{ rewrite Hv, Hq, Z.pow_0_r, Z.mul_1_r, <- Z.mul_assoc, <- Z.pow_add_r by lia.
        do 2 f_equal. lia. }
    rewrite binary_round_aux_exact; try lia.
    + f_equal; lia.
    + rewrite Hdm. unfold fexp64. lia.
  - rewrite shl_align_keep by lia.
    replace (Zpos q) with (Zpos p * 2 ^ (53 - d) * 2 ^ (d - 53 + k)).
    2:{ rewrite Hq, <- Z.mul_assoc, <- Z.pow_add_r by lia. do 2 f_equal. lia. }
    rewrite binary_round_aux_exact; try lia.
    + f_equal; lia.
    + rewrite Hdm. unfold fexp64. lia.
Qed.

Lemma binary_normalize_exact (z k : Z) :
  Z.abs z < 2 ^ 53 -> 0 <= k ->
  binary_normalize prec emax (z * 2 ^ k) (- k) false = SFint z.
Proof.
  intros Hz Hk. assert (0 < 2 ^ k) by (apply Z.pow_pos_nonneg; lia).
  destruct z as [|p|p]; cbn [SFint].
  - reflexivity.
  - destruct (Zpos p * 2 ^ k) as [|q|q] eqn:Hq; try lia.
    cbn [binary_normalize]. apply binary_round_exact; [lia|lia|lia].
  - destruct (Zneg p * 2 ^ k) as [|q|q] eqn:Hq; try lia.
    cbn [binary_normalize]. apply binary_round_exact; [lia|lia|lia].
Qed.

Lemma SFpos_valid (s : bool) (p : positive) :
  Zpos p < 2 ^ 53 -> valid_binary (SFpos s p) = true.
Proof.
  intros Hp. pose proof (digits_le_53 p Hp) as Hd.
  unfold SFpos. set (d := Zpos (digits2_pos p)) in *.
  assert (Hm : 0 < Zpos p * 2 ^ (53 - d)).
  { assert (0 < 2 ^ (53 - d)) by (apply Z.pow_pos_nonneg; lia). nia. }
  assert (Hdm : Zdigits2 (Zpos p * 2 ^ (53 - d)) = 53).
  { rewrite Zdigits2_mul_pow by lia. change (Zdigits2 (Zpos p)) with d. lia. }
  cbn [SpecFloat.valid_binary]. unfold bounded, canonical_mantissa.
  destruct (Zpos p * 2 ^ (53 - d)) as [|m|m] eqn:Hmm; try lia.
  change (Z.to_pos (Zpos m)) with m.
  change (Zpos (digits2_pos m)) with (Zdigits2 (Zpos m)). rewrite Hdm, fexp_64.
  change (emax - prec) with 971.
  apply andb_true_intro. split; [apply Z.eqb_eq; unfold fexp64; lia|apply Z.leb_le; lia].
Qed.

Lemma SFint_valid (z : Z) : Z.abs z < 2 ^ 53 -> valid_binary (SFint z) = true.
Proof.
  intros Hz. destruct z as [|p|p]; [reflexivity| |]; apply SFpos_valid; lia.
Qed.

Lemma Prim2SF_num (z : Z) : Z.abs z < 2 ^ 53 -> Prim2SF (num z) = SFint z.
Proof.
  intros Hz. unfold num.
  replace z with (z * 2 ^ 0) at 1 by (rewrite Z.pow_0_r; lia).
  change 0 with (- 0) at 2.
  rewrite binary_normalize_exact by lia.
  apply Prim2SF_SF2Prim, SFint_valid, Hz.
Qed.

(** ** Sums and differences *)

Lemma SFint_cases (z : Z) :
  Z.abs z < 2 ^ 53 ->
  (z = 0 /\ SFint z = S754_zero false) \/
  (exists s m e, SFint z = S754_finite s m e /\ e <= 0 /\
                 cond_Zopp s (Zpos m) = z * 2 ^ (- e)).
Proof.
  intros Hz. destruct z as [|p|p]; [left; split; reflexivity| |]; right.
  - pose proof (digits_le_53 p Hz) as Hd.
    exists false, (Z.to_pos (Zpos p * 2 ^ (53 - Zpos (digits2_pos p)))), (Zpos (digits2_pos p) - 53).
    split; [reflexivity|]. split; [lia|].
    assert (0 < 2 ^ (53 - Zpos (digits2_pos p))) by (apply Z.pow_pos_nonneg; lia).
    cbn [cond_Zopp]. rewrite Z2Pos.id by nia. do 2 f_equal. lia.
  - assert (Hp : Zpos p < 2 ^ 53) by lia. pose proof (digits_le_53 p Hp) as Hd.
    exists true, (Z.to_pos (Zpos p * 2 ^ (53 - Zpos (digits2_pos p)))), (Zpos (digits2_pos p) - 53).
    split; [reflexivity|]. split; [lia|].
    assert (0 < 2 ^ (53 - Zpos (digits2_pos p))) by (apply Z.pow_pos_nonneg; lia).
    cbn [cond_Zopp]. rewrite Z2Pos.id by nia.
    replace (- (Zpos (digits2_pos p) - 53)) with (53 - Zpos (digits2_pos p)) by lia. lia.
Qed.

Lemma aligned (s : bool) (m : positive) (e ez z : Z) :
  ez <= e -> e <= 0 -> cond_Zopp s (Zpos m) = z * 2 ^ (- e) ->
  cond_Zopp s (Zpos (fst (shl_align m e ez))) = z * 2 ^ (- ez).
Proof.
  intros Hle He Hm. destruct (shl_align_value m e ez Hle) as [Hv _]. rewrite Hv.
  replace (- ez) with (- e + (e - ez)) by lia. rewrite Z.pow_add_r by lia.
  rewrite Z.mul_assoc, <- Hm. destruct s; cbn [cond_Zopp]; lia.
Qed.

Lemma SFadd_int (a b : Z) :
  Z.abs a < 2 ^ 53 -> Z.abs b < 2 ^ 53 -> Z.abs (a + b) < 2 ^ 53 ->
  SFadd prec emax (SFint a) (SFint b) = SFint (a + b).
Proof.
  intros Ha Hb Hab.
  destruct (SFint_cases a Ha) as [[-> Ea]|(sa & ma & ea & Ea & Hea & Hma)];
  destruct (SFint_cases b Hb) as [[-> Eb]|(sb & mb & eb & Eb & Heb & Hmb)].
  - reflexivity.
  - rewrite Z.add_0_l, Ea, Eb. reflexivity.
  - rewrite Z.add_0_r, Ea, Eb. reflexivity.
  - rewrite Ea, Eb. cbn [SFadd].
    change (IntDef.Z.min ea eb) with (Z.min ea eb).
    rewrite (aligned sa ma ea (Z.min ea eb) a), (aligned sb mb eb (Z.min ea eb) b) by lia.
    rewrite <- Z.mul_add_distr_r.
    replace (Z.min ea eb) with (- - Z.min ea eb) at 2 by lia.
    apply binary_normalize_exact; lia.
Qed.

Lemma SFsub_int (a b : Z) :
  Z.abs a < 2 ^ 53 -> Z.abs b < 2 ^ 53 -> Z.abs (a - b) < 2 ^ 53 ->
  SFsub prec emax (SFint a) (SFint b) = SFint (a - b).
Proof.
  intros Ha Hb Hab.
  destruct (SFint_cases a Ha) as [[-> Ea]|(sa & ma & ea & Ea & Hea & Hma)];
  destruct (SFint_cases b Hb) as [[-> Eb]|(sb & mb & eb & Eb & Heb & Hmb)].
  - reflexivity.
  - destruct b as [|p|p]; [discriminate Eb|reflexivity|reflexivity].
  - rewrite Z.sub_0_r, Ea, Eb. reflexivity.
  - rewrite Ea, Eb. cbn [SFsub].
    change (IntDef.Z.min ea eb) with (Z.min ea eb).
    rewrite (aligned sa ma ea (Z.min ea eb) a), (aligned sb mb eb (Z.min ea eb) b) by lia.
    rewrite <- Z.mul_sub_distr_r.
    replace (Z.min ea eb) with (- - Z.min ea eb) at 2 by lia.
    apply binary_normalize_exact; lia.
Qed.

Lemma num_add (a b : Z) :
  Z.abs a < 2 ^ 53 -> Z.abs b < 2 ^ 53 -> Z.abs (a + b) < 2 ^ 53 ->
  (num a + num b)%float = num (a + b).
Proof.
  intros Ha Hb Hab. apply Prim2SF_inj.
  rewrite add_spec, !Prim2SF_num by assumption. apply SFadd_int; assumption.
Qed.

Lemma num_sub (a b : Z) :
  Z.abs a < 2 ^ 53 -> Z.abs b < 2 ^ 53 -> Z.abs (a - b) < 2 ^ 53 ->
  (num a - num b)%float = num (a - b).
Proof.
  intros Ha Hb Hab. apply Prim2SF_inj.
  rewrite sub_spec, !Prim2SF_num by assumption. apply SFsub_int; assumption.
Qed.

(** ** Reading a whole number back *)

Lemma intval_num (z : Z) : Z.abs z < 2 ^ 53 -> intval (num z) = Some z.
Proof.
  intros Hz. unfold intval. rewrite Prim2SF_num by assumption.
  destruct (SFint_cases z Hz) as [[-> E]|(s & m & e & E & He & Hm)]; [reflexivity|].
  rewrite E. assert (0 < 2 ^ (- e)) by (apply Z.pow_pos_nonneg; lia).
  assert (Habs : Zpos m = Z.abs z * 2 ^ (- e)).
  { destruct s; cbn [cond_Zopp] in Hm; nia. }
  destruct (Z.leb_spec 0 e).
  - assert (e = 0) by lia. subst e. change (- 0) with 0 in Hm.
    rewrite Z.pow_0_r, Z.mul_1_r in *. f_equal. exact Hm.
  - rewrite Habs, Z.mod_mul, Z.div_mul by lia. cbn [Z.eqb]. f_equal.
    destruct s; cbn [cond_Zopp] in *; nia.
Qed.

Lemma num_inj (a b : Z) :
  Z.abs a < 2 ^ 53 -> Z.abs b < 2 ^ 53 -> num a = num b -> a = b.
Proof.
  intros Ha Hb E. apply (f_equal intval) in E.
  rewrite !intval_num in E by assumption. congruence.
Qed.

(** ** The quotient by 3 *)


























Lemma num_0 : num 0 = 0%float.
Proof. reflexivity. Qed.

End Binary64.

Import App.

Lemma tripDynamicSpent_setExpenses (es : list Expense.t) (st : AppState) :
  tripDynamicSpent (setExpenses es st) =
  total Expense.amount
    (List.filter (fun e => String.eqb (Expense.accountId e) "trip") es).
Proof. reflexivity. Qed.

(** ** The figures in exact integer arithmetic

    What the formulas give on the integers.  The doubles of the component
    agree with these values as long as the magnitudes stay below 2^53
    ([trip_figures_exact] and [savings_figures_exact] below). *)

Lemma exact_balance_empty_ledger (st : AppState) :
  expenses st = [] -> incomes st = [] ->
  tripRemainingBalance st =
  totalBudget st - platinumTicket st - myFlightShare st - stay st
  + expectedIncoming st.
Proof.
  intros He Hi.
  unfold tripRemainingBalance, tripEffectiveSpent, tripTotalIncoming,
    tripDynamicSpent, tripDynamicIncome, tripExpenses, tripIncomes.
  rewrite He, Hi. simpl. lia.
Qed.




Lemma eqb_trip (a : AccountType) : a = "trip" -> String.eqb a "trip" = true.
Proof. intros ->. reflexivity. Qed.

Lemma trip_filter_appended (news old : list Expense.t) :
  Forall (fun e => Expense.accountId e = "trip") news ->
  List.filter (fun e => String.eqb (Expense.accountId e) "trip") (news ++ old) =
  news ++ List.filter (fun e => String.eqb (Expense.accountId e) "trip") old.
Proof.
  intros Hn. rewrite List.filter_app. f_equal.
  apply filter_all. eapply List.Forall_impl; [|exact Hn].
  intros e He. apply eqb_trip, He.
Qed.

Lemma exact_new_trip_expenses (st : AppState)
    (news expenses' : list Expense.t) :
  Forall (fun e => Expense.accountId e = "trip") news ->
  Permutation expenses' (news ++ expenses st) ->
  tripEffectiveSpent (setExpenses expenses' st) =
    tripEffectiveSpent st + total Expense.amount news /\
  tripRemainingBalance (setExpenses expenses' st) =
    tripRemainingBalance st - total Expense.amount news.
Proof.
  intros Htrip Hperm.
  assert (Hdyn : tripDynamicSpent (setExpenses expenses' st) =
                 tripDynamicSpent st + total Expense.amount news).
  { rewrite tripDynamicSpent_setExpenses.
    rewrite (total_Permutation _ _ _
               (filter_Permutation_bool _ _ _ Hperm)).
    rewrite trip_filter_appended by exact Htrip.
    rewrite total_app. unfold tripDynamicSpent, tripExpenses, total. lia. }
  unfold tripRemainingBalance, tripEffectiveSpent.
  rewrite Hdyn.
  change (tripTotalIncoming (setExpenses expenses' st))
    with (tripTotalIncoming st).
  cbn [setExpenses totalBudget platinumTicket pendingPlatinum myFlightShare stay].
  lia.
Qed.

Lemma not_savings_filtered {A : Type} (acc : A -> AccountType)
    (l1 l2 : list A) (x : A) :
  acc x = "trip" ->
  List.filter (fun y => String.eqb (acc y) "savings") (l1 ++ x :: l2) =
  List.filter (fun y => String.eqb (acc y) "savings") (l1 ++ l2).
Proof.
  intros Hx. rewrite !List.filter_app. simpl. rewrite Hx. reflexivity.
Qed.

(** C6: totalSavingsBalance does not see trip entries or places: putting a
    "trip" expense or income into the lists (or taking it out), at any
    position, and replacing the places leave it unchanged; it is a function of
    baseSavings and of the "savings" expenses and incomes alone. *)
Theorem totalSavingsBalance_isolated (st : AppState) :
  (forall (l1 l2 : list Expense.t) (e : Expense.t),
     Expense.accountId e = "trip" ->
     totalSavingsBalance (setExpenses (l1 ++ e :: l2) st) =
     totalSavingsBalance (setExpenses (l1 ++ l2) st)) /\
  (forall (l1 l2 : list Income.t) (i : Income.t),
     Income.accountId i = "trip" ->
     totalSavingsBalance (setIncomes (l1 ++ i :: l2) st) =
     totalSavingsBalance (setIncomes (l1 ++ l2) st)) /\
  (forall ps : list Place.t,
     totalSavingsBalance (setPlaces ps st) = totalSavingsBalance st) /\
  (forall st' : AppState,
     baseSavings st' = baseSavings st ->
     savingsExpenses st' = savingsExpenses st ->
     savingsIncomes st' = savingsIncomes st ->
     totalSavingsBalance st' = totalSavingsBalance st).
Proof.
  repeat split.
  - intros l1 l2 e He.
    unfold totalSavingsBalance, savingsDynamicSpent, savingsExpenses.
    cbn [setExpenses expenses].
    rewrite (not_savings_filtered Expense.accountId) by exact He.
    reflexivity.
  - intros l1 l2 i Hi.
    unfold totalSavingsBalance, savingsDynamicIncome, savingsIncomes.
    cbn [setIncomes incomes].
    rewrite (not_savings_filtered Income.accountId) by exact Hi.
    reflexivity.
  - intros st' Hb He Hi.
    unfold totalSavingsBalance, savingsDynamicSpent, savingsDynamicIncome.
    rewrite Hb, He, Hi. reflexivity.
Qed.

Lemma totalSavingsBalance_isolated_witness :
  totalSavingsBalance (handleAddIncome refund scenario) =
  totalSavingsBalance scenario.
Proof.
  exact (proj1 (proj2 (totalSavingsBalance_isolated scenario))
           [] [] refund eq_refl).
Defined.

Section OrderIndependence.
Variable st : AppState.
Variables (expenses' : list Expense.t) (incomes' : list Income.t).
Hypothesis Hexpenses : Permutation (expenses st) expenses'.
Hypothesis Hincomes : Permutation (incomes st) incomes'.

Let st' : AppState := setIncomes incomes' (setExpenses expenses' st).

Lemma tripDynamicSpent_perm : tripDynamicSpent st' = tripDynamicSpent st.
Proof.
  symmetry. apply (total_Permutation Expense.amount).
  apply filter_Permutation_bool, Hexpenses.
Qed.

Lemma savingsDynamicSpent_perm : savingsDynamicSpent st' = savingsDynamicSpent st.
Proof.
  symmetry. apply (total_Permutation Expense.amount).
  apply filter_Permutation_bool, Hexpenses.
Qed.

Lemma tripDynamicIncome_perm : tripDynamicIncome st' = tripDynamicIncome st.
Proof.
  symmetry. apply (total_Permutation Income.amount).
  apply filter_Permutation_bool, Hincomes.
Qed.

Lemma savingsDynamicIncome_perm :
  savingsDynamicIncome st' = savingsDynamicIncome st.
Proof.
  symmetry. apply (total_Permutation Income.amount).
  apply filter_Permutation_bool, Hincomes.
Qed.
End OrderIndependence.

Lemma exact_figures_permuted (st : AppState)
    (expenses' : list Expense.t) (incomes' : list Income.t) :
  Permutation (expenses st) expenses' ->
  Permutation (incomes st) incomes' ->
  figures (setIncomes incomes' (setExpenses expenses' st)) = figures st.
Proof.
  intros He Hi.
  unfold figures, safeDailySpend, totalSavingsBalance, tripRemainingBalance,
    tripEffectiveSpent, tripTotalIncoming.
  rewrite (tripDynamicSpent_perm st expenses' incomes' He).
  rewrite (savingsDynamicSpent_perm st expenses' incomes' He).
  rewrite (tripDynamicIncome_perm st expenses' incomes' Hi).
  rewrite (savingsDynamicIncome_perm st expenses' incomes' Hi).
  reflexivity.
Qed.

(** C10: flightTotal is read by no formula: changing it alone changes none of
    the derived figures. *)
Theorem figures_ignore_flightTotal (st : AppState) (v : Z) :
  figures (setFlightTotal v st) = figures st /\
  tripEffectiveSpent (setFlightTotal v st) = tripEffectiveSpent st /\
  tripTotalIncoming (setFlightTotal v st) = tripTotalIncoming st /\
  tripRemainingBalance (setFlightTotal v st) = tripRemainingBalance st /\
  safeDailySpend (setFlightTotal v st) = safeDailySpend st /\
  totalSavingsBalance (setFlightTotal v st) = totalSavingsBalance st.
Proof. repeat split. Qed.

(** * The calculation in binary64 *)

(** ** Sums of amounts *)

Section Reduce.
Context {A : Type} (amount : A -> Z).

Lemma magnitude_nonneg (l : list A) :
  0 <= total (fun e => Z.abs (amount e)) l.
Proof.
  induction l as [|x l IH]; [reflexivity|]. rewrite total_cons. lia.
Qed.

Lemma total_le_magnitude (l : list A) :
  Z.abs (total amount l) <= total (fun e => Z.abs (amount e)) l.
Proof.
  induction l as [|x l IH]; [reflexivity|]. rewrite !total_cons. lia.
Qed.

Lemma reduce_from (l : list A) (acc : Z) :
  Z.abs acc + total (fun e => Z.abs (amount e)) l < 2 ^ 53 ->
  fold_left (fun sum e => (sum + Double.num (amount e))%float) l (Double.num acc)
  = Double.num (acc + total amount l).
Proof.
  revert acc. induction l as [|x l IH]; intros acc Hb.
  - cbn [fold_left]. f_equal. unfold total. cbn [fold_left]. lia.
  - rewrite total_cons in Hb. pose proof (magnitude_nonneg l).
    cbn [fold_left]. rewrite num_add by lia. rewrite IH by lia.
    f_equal. rewrite total_cons. lia.
Qed.

Lemma reduce_exact (l : list A) :
  total (fun e => Z.abs (amount e)) l < 2 ^ 53 ->
  fold_left (fun sum e => (sum + Double.num (amount e))%float) l 0%float
  = Double.num (total amount l).
Proof.
  intros Hb. change 0%float with (Double.num 0).
  rewrite reduce_from by (simpl; lia). reflexivity.
Qed.
End Reduce.

(** ** The doubles of the component hold the exact figures *)

Lemma trip_figures_exact (st : AppState) :
  Double.trip_magnitude st < 2 ^ 53 ->
  Double.tripDynamicSpent st = Double.num (tripDynamicSpent st) /\
  Double.tripDynamicIncome st = Double.num (tripDynamicIncome st) /\
  Double.tripEffectiveSpent st = Double.num (tripEffectiveSpent st) /\
  Double.tripTotalIncoming st = Double.num (tripTotalIncoming st) /\
  Double.tripRemainingBalance st = Double.num (tripRemainingBalance st).
Proof.
  unfold Double.trip_magnitude. intros Hb.
  pose proof (magnitude_nonneg Expense.amount (tripExpenses st)) as He0.
  pose proof (magnitude_nonneg Income.amount (tripIncomes st)) as Hi0.
  pose proof (total_le_magnitude Expense.amount (tripExpenses st)) as He.
  pose proof (total_le_magnitude Income.amount (tripIncomes st)) as Hi.
  assert (Hs : Double.tripDynamicSpent st = Double.num (tripDynamicSpent st)).
  { apply (reduce_exact Expense.amount). lia. }
  assert (Hd : Double.tripDynamicIncome st = Double.num (tripDynamicIncome st)).
  { apply (reduce_exact Income.amount). lia. }
  change (tripDynamicSpent st) with (total Expense.amount (tripExpenses st)) in *.
  change (tripDynamicIncome st) with (total Income.amount (tripIncomes st)) in *.
  assert (HE : Double.tripEffectiveSpent st = Double.num (tripEffectiveSpent st)).
  { unfold Double.tripEffectiveSpent, tripEffectiveSpent. rewrite Hs.
    change (tripDynamicSpent st) with (total Expense.amount (tripExpenses st)).
    rewrite num_sub, !num_add by lia. reflexivity. }
  assert (HI : Double.tripTotalIncoming st = Double.num (tripTotalIncoming st)).
  { unfold Double.tripTotalIncoming, tripTotalIncoming. rewrite Hd.
    change (tripDynamicIncome st) with (total Income.amount (tripIncomes st)).
    rewrite num_add by lia. reflexivity. }
  repeat split; try assumption.
  unfold Double.tripRemainingBalance. rewrite HE, HI.
  unfold tripRemainingBalance, tripEffectiveSpent, tripTotalIncoming.
  change (tripDynamicSpent st) with (total Expense.amount (tripExpenses st)).
  change (tripDynamicIncome st) with (total Income.amount (tripIncomes st)).
  rewrite !num_sub, num_add by lia. reflexivity.
Qed.

Lemma trip_figures_bounded (st : AppState) :
  Z.abs (tripEffectiveSpent st) <= Double.trip_magnitude st /\
  Z.abs (tripTotalIncoming st) <= Double.trip_magnitude st /\
  Z.abs (tripRemainingBalance st) <= Double.trip_magnitude st.
Proof.
  unfold Double.trip_magnitude, tripRemainingBalance, tripEffectiveSpent,
    tripTotalIncoming.
  change (tripDynamicSpent st) with (total Expense.amount (tripExpenses st)).
  change (tripDynamicIncome st) with (total Income.amount (tripIncomes st)).
  pose proof (magnitude_nonneg Expense.amount (tripExpenses st)).
  pose proof (magnitude_nonneg Income.amount (tripIncomes st)).
  pose proof (total_le_magnitude Expense.amount (tripExpenses st)).
  pose proof (total_le_magnitude Income.amount (tripIncomes st)).
  lia.
Qed.

Lemma savings_figures_exact (st : AppState) :
  Double.savings_magnitude st < 2 ^ 53 ->
  Double.savingsDynamicSpent st = Double.num (savingsDynamicSpent st) /\
  Double.savingsDynamicIncome st = Double.num (savingsDynamicIncome st) /\
  Double.totalSavingsBalance st = Double.num (totalSavingsBalance st) /\
  Z.abs (totalSavingsBalance st) <= Double.savings_magnitude st.
Proof.
  unfold Double.savings_magnitude. intros Hb.
  pose proof (magnitude_nonneg Expense.amount (savingsExpenses st)) as He0.
  pose proof (magnitude_nonneg Income.amount (savingsIncomes st)) as Hi0.
  pose proof (total_le_magnitude Expense.amount (savingsExpenses st)) as He.
  pose proof (total_le_magnitude Income.amount (savingsIncomes st)) as Hi.
  assert (Hs : Double.savingsDynamicSpent st
               = Double.num (savingsDynamicSpent st)).
  { apply (reduce_exact Expense.amount). lia. }
  assert (Hd : Double.savingsDynamicIncome st
               = Double.num (savingsDynamicIncome st)).
  { apply (reduce_exact Income.amount). lia. }
  repeat split; try assumption.
  - unfold Double.totalSavingsBalance, totalSavingsBalance. rewrite Hs, Hd.
    change (savingsDynamicSpent st)
      with (total Expense.amount (savingsExpenses st)).
    change (savingsDynamicIncome st)
      with (total Income.amount (savingsIncomes st)).
    rewrite num_add, num_sub by lia. reflexivity.
  - unfold totalSavingsBalance.
    change (savingsDynamicSpent st)
      with (total Expense.amount (savingsExpenses st)).
    change (savingsDynamicIncome st)
      with (total Income.amount (savingsIncomes st)).
    lia.
Qed.

(** Reading the figures back. *)
Lemma trip_figures_intval (st : AppState) :
  Double.trip_magnitude st < 2 ^ 53 ->
  Double.intval (Double.tripEffectiveSpent st) = Some (tripEffectiveSpent st) /\
  Double.intval (Double.tripTotalIncoming st) = Some (tripTotalIncoming st) /\
  Double.intval (Double.tripRemainingBalance st)
    = Some (tripRemainingBalance st).
Proof.
  intros Hb. destruct (trip_figures_exact st Hb) as (_ & _ & HE & HI & HB).
  destruct (trip_figures_bounded st) as (BE & BI & BB).
  rewrite HE, HI, HB, !intval_num by lia. repeat split.
Qed.


(** C1 (as amended): with no Expense and no Income entry, and whole-number
    cells whose magnitudes add up to less than 2^53, the remaining trip
    balance the component computes is exactly totalBudget - platinumTicket -
    myFlightShare - stay + expectedIncoming; pendingPlatinum cancels out of
    it. *)
Theorem tripRemainingBalance_empty_ledger (st : AppState) :
  expenses st = [] -> incomes st = [] ->
  Double.trip_magnitude st < 2 ^ 53 ->
  Double.intval (Double.tripRemainingBalance st) =
  Some (totalBudget st - platinumTicket st - myFlightShare st - stay st
        + expectedIncoming st).
Proof.
  intros He Hi Hb.
  destruct (trip_figures_intval st Hb) as (_ & _ & HB).
  rewrite HB, (exact_balance_empty_ledger st He Hi). reflexivity.
Qed.

Lemma tripRemainingBalance_empty_ledger_witness :
  Double.intval (Double.tripRemainingBalance scenario)
  = Some (30000 - 22500 - 11250 - 2000 + 11250).
Proof.
  apply (tripRemainingBalance_empty_ledger scenario eq_refl eq_refl).
  vm_compute. reflexivity.
Defined.

(** C1 (as stated) fails: in the worked scenario, whose ledger is empty, the
    component computes a balance of 5500 while the stated closed form, with
    its - pendingPlatinum, gives -6000. *)
Lemma tripRemainingBalance_stated_closed_form_fails :
  expenses scenario = [] /\ incomes scenario = [] /\
  Double.intval (Double.tripRemainingBalance scenario) = Some 5500 /\
  totalBudget scenario - platinumTicket scenario - myFlightShare scenario
  - stay scenario - pendingPlatinum scenario + expectedIncoming scenario
  = -6000.
Proof. repeat split. Qed.

(** Without the bound the closed form can be off by one: a budget of
    2^53 - 1 with 2 pending gives 2^53 - 2, because totalBudget -
    tripEffectiveSpent is 2^53 + 1, which no double holds. *)
Example tripRemainingBalance_beyond_2_53 :
  expenses budget_at_limit = [] /\ incomes budget_at_limit = [] /\
  Double.intval (Double.tripRemainingBalance budget_at_limit)
    = Some 9007199254740990 /\
  totalBudget budget_at_limit - platinumTicket budget_at_limit
  - myFlightShare budget_at_limit - stay budget_at_limit
  + expectedIncoming budget_at_limit = 9007199254740991.
Proof. repeat split. Qed.

(** C2: in the worked scenario the component computes tripEffectiveSpent =
    24250, tripTotalIncoming = 11250, tripRemainingBalance = 5500 and
    totalSavingsBalance = 50000 exactly, and safeDailySpend is the double
    8063085270357333 / 2^42, which is 1833.33 to two decimals. *)
Theorem scenario_figures :
  Double.intval (Double.tripEffectiveSpent scenario) = Some 24250 /\
  Double.intval (Double.tripTotalIncoming scenario) = Some 11250 /\
  Double.intval (Double.tripRemainingBalance scenario) = Some 5500 /\
  Double.value (Double.safeDailySpend scenario)
    = Some (8063085270357333 # 4398046511104) /\
  (1833.33 - 0.005 <= 8063085270357333 # 4398046511104 < 1833.33 + 0.005)%Q /\
  Double.intval (Double.totalSavingsBalance scenario) = Some 50000.
Proof.
  repeat split; try reflexivity; vm_compute; congruence.
Qed.

(** The next line of the worked example: with an expense of 500 on the trip
    account the figures are 24750 and 5000, and safeDailySpend is 1666.67 to
    two decimals. *)
Example scenario_with_500_spent :
  let st := handleAddExpense
              (Expense.mk "1700000000009" "Dinner" 500 "Food" "28 Mar"
                          "08:00 PM" "trip") scenario in
  Double.intval (Double.tripEffectiveSpent st) = Some 24750 /\
  Double.intval (Double.tripRemainingBalance st) = Some 5000 /\
  exists q, Double.value (Double.safeDailySpend st) = Some q /\
            (1666.67 - 0.005 <= q < 1666.67 + 0.005)%Q.
Proof.
  repeat split; try reflexivity.
  eexists. split; [reflexivity|]. split; vm_compute; congruence.
Qed.

(** ** safeDailySpend *)




(** The quotient is not the truncated one, and the floor is at zero: in the
    worked scenario safeDailySpend is not a whole number, and with the whole
    budget spent it is 0; with cells too large for a double the balance is
    NaN, and so is safeDailySpend. *)
Example safeDailySpend_examples :
  Double.intval (Double.safeDailySpend scenario) = None /\
  Double.intval
    (Double.tripRemainingBalance
       (handleAddExpense
          (Expense.mk "1700000000014" "Hotel" 9000 "Misc" "29 Mar" "09:00 PM"
                      "trip") scenario)) = Some (-3500) /\
  Double.safeDailySpend
    (handleAddExpense
       (Expense.mk "1700000000014" "Hotel" 9000 "Misc" "29 Mar" "09:00 PM"
                   "trip") scenario) = 0%float /\
  is_nan (Double.safeDailySpend
            (mkAppState (2 ^ 1024) (2 ^ 1024) 0 0 0 0 0 0 [] [] [])) = true.
Proof. repeat split. Qed.

(** ** Adding trip expenses *)

Lemma trip_magnitude_grows (st : AppState) (news expenses' : list Expense.t) :
  Forall (fun e => Expense.accountId e = "trip") news ->
  Permutation expenses' (news ++ expenses st) ->
  Double.trip_magnitude (setExpenses expenses' st)
  = Double.trip_magnitude st + total (fun e => Z.abs (Expense.amount e)) news.
Proof.
  intros Htrip Hperm. unfold Double.trip_magnitude.
  change (tripIncomes (setExpenses expenses' st)) with (tripIncomes st).
  cbn [setExpenses totalBudget platinumTicket pendingPlatinum myFlightShare
       stay expectedIncoming].
  unfold tripExpenses at 1. cbn [setExpenses expenses].
  rewrite (total_Permutation _ _ _ (filter_Permutation_bool _ _ _ Hperm)).
  rewrite trip_filter_appended by exact Htrip.
  rewrite total_app. unfold tripExpenses. lia.
Qed.

(** C5 (as amended): when the expense list grows by N entries tagged "trip"
    with whole-number amounts a1..aN, everything else being kept, and the
    magnitudes of the trip figures' inputs still add up to less than 2^53,
    tripEffectiveSpent grows by exactly a1 + ... + aN and
    tripRemainingBalance shrinks by the same sum, wherever the new entries
    land in the list. *)
Theorem trip_expenses_add_up (st : AppState) (news expenses' : list Expense.t) :
  Forall (fun e => Expense.accountId e = "trip") news ->
  Permutation expenses' (news ++ expenses st) ->
  Double.trip_magnitude (setExpenses expenses' st) < 2 ^ 53 ->
  exists spent balance : Z,
    Double.intval (Double.tripEffectiveSpent st) = Some spent /\
    Double.intval (Double.tripEffectiveSpent (setExpenses expenses' st))
      = Some (spent + total Expense.amount news) /\
    Double.intval (Double.tripRemainingBalance st) = Some balance /\
    Double.intval (Double.tripRemainingBalance (setExpenses expenses' st))
      = Some (balance - total Expense.amount news).
Proof.
  intros Htrip Hperm Hb.
  pose proof (trip_magnitude_grows st news expenses' Htrip Hperm) as Hm.
  pose proof (magnitude_nonneg Expense.amount news) as Hn.
  assert (Hb0 : Double.trip_magnitude st < 2 ^ 53) by lia.
  destruct (trip_figures_intval st Hb0) as (E & _ & B).
  destruct (trip_figures_intval _ Hb) as (E' & _ & B').
  destruct (exact_new_trip_expenses st news expenses' Htrip Hperm)
    as [HE HB].
  exists (tripEffectiveSpent st), (tripRemainingBalance st).
  rewrite E, E', B, B', HE, HB. repeat split.
Qed.

Lemma trip_expenses_add_up_witness :
  exists spent balance : Z,
    Double.intval (Double.tripEffectiveSpent scenario) = Some spent /\
    Double.intval
      (Double.tripEffectiveSpent (setExpenses [metro_card; momos] scenario))
      = Some (spent + total Expense.amount [momos; metro_card]) /\
    Double.intval (Double.tripRemainingBalance scenario) = Some balance /\
    Double.intval
      (Double.tripRemainingBalance (setExpenses [metro_card; momos] scenario))
      = Some (balance - total Expense.amount [momos; metro_card]).
Proof.
  apply (trip_expenses_add_up scenario [momos; metro_card] [metro_card; momos]).
  - repeat constructor.
  - simpl. apply perm_swap.
  - vm_compute. reflexivity.
Defined.

(** C5 (as stated) fails: after one trip expense of 2^53 - 1, two more of 1
    each, put in front as handleAddExpense does, raise tripEffectiveSpent by
    1 and not by 2: the reduce passes through 2 + (2^53 - 1), which rounds
    to 2^53. *)
Lemma trip_expenses_do_not_add_up :
  Forall (fun e => Expense.accountId e = "trip") [tip_b; tip_a] /\
  expenses after_tips = [tip_b; tip_a] ++ expenses before_tips /\
  total Expense.amount [tip_b; tip_a] = 2 /\
  Double.intval (Double.tripEffectiveSpent before_tips)
    = Some 9007199254740991 /\
  Double.intval (Double.tripEffectiveSpent after_tips)
    = Some 9007199254740992 /\
  Double.intval (Double.tripRemainingBalance before_tips)
    = Some (-9007199254740991) /\
  Double.intval (Double.tripRemainingBalance after_tips)
    = Some (-9007199254740992).
Proof. repeat split; repeat constructor. Qed.

(** ** The order of the entries *)

Lemma magnitudes_Permutation (st : AppState)
    (expenses' : list Expense.t) (incomes' : list Income.t) :
  Permutation (expenses st) expenses' ->
  Permutation (incomes st) incomes' ->
  Double.trip_magnitude (setIncomes incomes' (setExpenses expenses' st))
    = Double.trip_magnitude st /\
  Double.savings_magnitude (setIncomes incomes' (setExpenses expenses' st))
    = Double.savings_magnitude st.
Proof.
  intros He Hi.
  unfold Double.trip_magnitude, Double.savings_magnitude, tripExpenses,
    tripIncomes, savingsExpenses, savingsIncomes.
  cbn [setIncomes setExpenses expenses incomes totalBudget platinumTicket
       pendingPlatinum myFlightShare stay expectedIncoming baseSavings].
  rewrite <- !(total_Permutation _ _ _ (filter_Permutation_bool _ _ _ He)).
  rewrite <- !(total_Permutation _ _ _ (filter_Permutation_bool _ _ _ Hi)).
  split; reflexivity.
Qed.

(** C7 (as amended): for whole-number cells and amounts whose magnitudes add
    up to less than 2^53, on the trip side and on the savings side, the
    calculation is order-independent: permuting the expense list and the
    income list leaves all nine figures the component computes unchanged. *)
Theorem figures_order_independent (st : AppState)
    (expenses' : list Expense.t) (incomes' : list Income.t) :
  Permutation (expenses st) expenses' ->
  Permutation (incomes st) incomes' ->
  Double.safe_integers st ->
  Double.figures (setIncomes incomes' (setExpenses expenses' st))
  = Double.figures st.
Proof.
  intros He Hi [Ht Hs].
  destruct (magnitudes_Permutation st expenses' incomes' He Hi) as [Mt Ms].
  set (st' := setIncomes incomes' (setExpenses expenses' st)) in *.
  assert (Ht' : Double.trip_magnitude st' < 2 ^ 53) by lia.
  assert (Hs' : Double.savings_magnitude st' < 2 ^ 53) by lia.
  destruct (trip_figures_exact st Ht) as (a1 & a2 & a3 & a4 & a5).
  destruct (trip_figures_exact st' Ht') as (b1 & b2 & b3 & b4 & b5).
  destruct (savings_figures_exact st Hs) as (a6 & a7 & a8 & _).
  destruct (savings_figures_exact st' Hs') as (b6 & b7 & b8 & _).
  pose proof (exact_figures_permuted st expenses' incomes' He Hi)
    as HZ.
  fold st' in HZ. unfold figures in HZ.
  injection HZ as E1 E2 E3 E4 E5 E6 E7 _ E9.
  unfold Double.figures, Double.safeDailySpend.
  rewrite b1, b2, b3, b4, b5, b6, b7, b8, a1, a2, a3, a4, a5, a6, a7, a8.
  rewrite E1, E2, E3, E4, E5, E6, E7, E9. reflexivity.
Qed.

Lemma figures_order_independent_witness :
  Double.figures (setIncomes [refund; stipend]
                    (setExpenses [metro_card; momos]
                       (setIncomes [stipend; refund]
                          (setExpenses [momos; metro_card] scenario)))) =
  Double.figures (setIncomes [stipend; refund]
                    (setExpenses [momos; metro_card] scenario)).
Proof.
  apply (figures_order_independent
           (setIncomes [stipend; refund]
              (setExpenses [momos; metro_card] scenario))).
  - apply perm_swap.
  - apply perm_swap.
  - split; vm_compute; reflexivity.
Defined.

(** C7 (as stated) fails: the trip expenses 2^53, 1 and 1 add up to 2^53 in
    that order (2^53 + 1 rounds back to 2^53, twice) and to 2^53 + 2 with the
    large one last, so the two orders give different figures. *)
Lemma figures_depend_on_order :
  Permutation (expenses charter_first) (expenses charter_last) /\
  incomes charter_first = incomes charter_last /\
  Double.intval (Double.tripDynamicSpent charter_first)
    = Some 9007199254740992 /\
  Double.intval (Double.tripDynamicSpent charter_last)
    = Some 9007199254740994 /\
  Double.figures charter_last <> Double.figures charter_first.
Proof.
  split.
  { change (Permutation ([charter] ++ [tip_a; tip_b]) ([tip_a; tip_b] ++ [charter])).
    apply Permutation_app_comm. }
  repeat split.
  intros H.
  apply (f_equal (fun f => Double.intval (Double.f_tripDynamicSpent f))) in H.
  vm_compute in H. discriminate H.
Qed.

(** ** What the figures do not read

    Neither flightTotal, nor the places, nor an entry with another tag
    reaches a sum of the component. *)

Lemma double_figures_ignore_flightTotal (st : AppState) (v : Z) :
  Double.figures (setFlightTotal v st) = Double.figures st.
Proof. reflexivity. Qed.

Lemma double_savings_ignore_trip (st : AppState) :
  (forall (l1 l2 : list Expense.t) (e : Expense.t),
     Expense.accountId e = "trip" ->
     Double.totalSavingsBalance (setExpenses (l1 ++ e :: l2) st) =
     Double.totalSavingsBalance (setExpenses (l1 ++ l2) st)) /\
  (forall (l1 l2 : list Income.t) (i : Income.t),
     Income.accountId i = "trip" ->
     Double.totalSavingsBalance (setIncomes (l1 ++ i :: l2) st) =
     Double.totalSavingsBalance (setIncomes (l1 ++ l2) st)) /\
  (forall ps : list Place.t,
     Double.totalSavingsBalance (setPlaces ps st)
     = Double.totalSavingsBalance st).
Proof.
  split; [|split].
  - intros l1 l2 e He.
    unfold Double.totalSavingsBalance, Double.savingsDynamicSpent,
      savingsExpenses.
    cbn [setExpenses expenses].
    rewrite (not_savings_filtered Expense.accountId) by exact He.
    reflexivity.
  - intros l1 l2 i Hi.
    unfold Double.totalSavingsBalance, Double.savingsDynamicIncome,
      savingsIncomes.
    cbn [setIncomes incomes].
    rewrite (not_savings_filtered Income.accountId) by exact Hi.
    reflexivity.
  - intros ps. reflexivity.
Qed.

Lemma double_untagged_entries (st : AppState) (e : Expense.t) (i : Income.t) :
  Expense.accountId e <> "trip" -> Expense.accountId e <> "savings" ->
  Income.accountId i <> "trip" -> Income.accountId i <> "savings" ->
  Double.figures (handleAddExpense e st) = Double.figures st /\
  Double.figures (handleAddIncome i st) = Double.figures st.
Proof.
  intros Het Hes Hit His.
  apply String.eqb_neq in Het, Hes, Hit, His.
  split.
  - unfold Double.figures, Double.safeDailySpend, Double.totalSavingsBalance,
      Double.tripRemainingBalance, Double.tripEffectiveSpent,
      Double.tripDynamicSpent, Double.savingsDynamicSpent,
      tripExpenses, savingsExpenses.
    cbn [handleAddExpense setExpenses expenses List.filter].
    rewrite Het, Hes. reflexivity.
  - unfold Double.figures, Double.safeDailySpend, Double.totalSavingsBalance,
      Double.tripRemainingBalance, Double.tripTotalIncoming,
      Double.tripDynamicIncome, Double.savingsDynamicIncome,
      tripIncomes, savingsIncomes.
    cbn [handleAddIncome setIncomes incomes List.filter].
    rewrite Hit, His. reflexivity.
Qed.

(** * Properties of the database routes *)

(** ** The bytewise order on identifiers *)

Lemma string_compare_refl (s : string) : String.compare s s = Eq.
Proof.
  pose proof (String.compare_antisym s s) as H.
  destruct (String.compare s s); simpl in H; congruence.
Qed.

Lemma ascii_compare_refl (a : Ascii.ascii) : Ascii.compare a a = Eq.
Proof. unfold Ascii.compare. apply N.compare_refl. Qed.

Lemma ascii_compare_lt_trans (a b c : Ascii.ascii) :
  Ascii.compare a b = Lt -> Ascii.compare b c = Lt -> Ascii.compare a c = Lt.
Proof. unfold Ascii.compare. rewrite !N.compare_lt_iff. lia. Qed.

Lemma string_compare_lt_trans (s1 s2 s3 : string) :
  String.compare s1 s2 = Lt -> String.compare s2 s3 = Lt ->
  String.compare s1 s3 = Lt.
Proof.
  revert s2 s3.
  induction s1 as [|a s1 IH]; intros [|b s2] [|c s3]; simpl;
    try discriminate; try reflexivity.
  destruct (Ascii.compare a b) eqn:Hab; try discriminate;
    destruct (Ascii.compare b c) eqn:Hbc; try discriminate; intros H12 H23.
  - apply Ascii.compare_eq_iff in Hab, Hbc. subst.
    rewrite ascii_compare_refl. eapply IH; eassumption.
  - apply Ascii.compare_eq_iff in Hab. subst. rewrite Hbc. reflexivity.
  - apply Ascii.compare_eq_iff in Hbc. subst. rewrite Hab. reflexivity.
  - rewrite (ascii_compare_lt_trans a b c Hab Hbc). reflexivity.
Qed.

Lemma string_leb_lt_or_eq (s1 s2 : string) :
  String.leb s1 s2 = true <-> String.compare s1 s2 = Lt \/ s1 = s2.
Proof.
  unfold String.leb. split.
  - destruct (String.compare s1 s2) eqn:Hc; try discriminate; intros _.
    + right. apply String.compare_eq_iff, Hc.
    + left. reflexivity.
  - intros [->| ->]; [reflexivity|]. rewrite string_compare_refl. reflexivity.
Qed.

Lemma string_leb_trans (s1 s2 s3 : string) :
  String.leb s1 s2 = true -> String.leb s2 s3 = true ->
  String.leb s1 s3 = true.
Proof.
  rewrite !string_leb_lt_or_eq.
  intros [H12| ->] [H23| ->]; auto.
  left. eapply string_compare_lt_trans; eassumption.
Qed.

Lemma string_ltb_leb (s1 s2 : string) :
  String.ltb s1 s2 = true -> String.leb s1 s2 = true.
Proof.
  unfold String.ltb, String.leb. destruct (String.compare s1 s2); congruence.
Qed.

Lemma string_ltb_irrefl (s : string) : String.ltb s s = false.
Proof. unfold String.ltb. rewrite string_compare_refl. reflexivity. Qed.

Lemma string_ltb_trans (s1 s2 s3 : string) :
  String.ltb s1 s2 = true -> String.ltb s2 s3 = true ->
  String.ltb s1 s3 = true.
Proof.
  unfold String.ltb.
  destruct (String.compare s1 s2) eqn:H12; try discriminate.
  destruct (String.compare s2 s3) eqn:H23; try discriminate.
  rewrite (string_compare_lt_trans _ _ _ H12 H23). reflexivity.
Qed.

(** ** Tables keyed by a text identifier *)

Lemma elem_of_rev {A : Type} (x : A) (l : list A) : x ∈ rev l <-> x ∈ l.
Proof. rewrite !list_elem_of_In. symmetry. apply in_rev. Qed.

Section Tables.
Context {E : Type} `{Server.Entry E}.
Implicit Types (db : Server.Db) (t l : list (Server.row E)) (r : Server.row E).

#[local] Instance id_desc_trans : Transitive (@Server.id_desc E _).
Proof. intros r1 r2 r3 H12 H23. eapply string_leb_trans; eassumption. Qed.

#[local] Instance id_desc_total : Total (@Server.id_desc E _).
Proof. intros r1 r2. apply String.leb_total. Qed.

#[local] Instance id_lt_trans : Transitive (@Server.id_lt E _).
Proof. intros r1 r2 r3. apply string_ltb_trans. Qed.

Lemma insert_row_duplicate db t r :
  Server.insert_row db t r = Server.Throw Server.SQLITE_CONSTRAINT_PRIMARYKEY
  <-> Server.row_id r ∈ Server.row_id <$> t.
Proof.
  unfold Server.insert_row.
  case_bool_decide as Hin; [tauto|].
  destruct (Server.references_user db (Server.user_id r));
    split; intros; try discriminate; contradiction.
Qed.

Lemma insert_row_fresh db t r :
  Server.row_id r ∉ Server.row_id <$> t ->
  Server.references_user db (Server.user_id r) = true ->
  Server.insert_row db t r = Server.Ok (t ++ [r]).
Proof.
  intros Hfresh Hfk. unfold Server.insert_row.
  rewrite bool_decide_eq_false_2 by exact Hfresh.
  rewrite Hfk. reflexivity.
Qed.

Lemma select_by_user_Permutation (u : Z) t :
  Server.select_by_user u t ≡ₚ filter (fun r => Server.user_id r = u) t.
Proof. apply merge_sort_Permutation. Qed.

Lemma select_by_user_sorted (u : Z) t :
  StronglySorted Server.id_desc (Server.select_by_user u t).
Proof. apply StronglySorted_merge_sort; apply _. Qed.

Lemma increasing_ids_unique t r1 r2 :
  StronglySorted Server.id_lt t -> r1 ∈ t -> r2 ∈ t ->
  Server.row_id r1 = Server.row_id r2 -> r1 = r2.
Proof.
  induction 1 as [|r t Hsorted IH Hall]; intros H1 H2 Heq.
  - inversion H1.
  - rewrite Forall_forall in Hall.
    apply elem_of_cons in H1 as [->|H1], H2 as [->|H2]; auto.
    + specialize (Hall _ H2). unfold Server.id_lt in Hall.
      rewrite Heq, string_ltb_irrefl in Hall. discriminate.
    + specialize (Hall _ H1). unfold Server.id_lt in Hall.
      rewrite <- Heq, string_ltb_irrefl in Hall. discriminate.
Qed.

Lemma increasing_rev_desc (P : Server.row E -> Prop) `{!forall r, Decision (P r)} t :
  StronglySorted Server.id_lt t ->
  StronglySorted Server.id_desc (rev (filter P t)).
Proof.
  induction 1 as [|r t Hsorted IH Hall]; [constructor|].
  assert (Htail : StronglySorted Server.id_desc (rev (filter P t) ++ [r])).
  { apply StronglySorted_app_2; [|exact IH|repeat constructor].
    intros r1 r2 H1 H2. apply list_elem_of_singleton in H2 as ->.
    rewrite elem_of_rev in H1.
    apply list_elem_of_filter in H1 as [_ H1].
    rewrite Forall_forall in Hall.
    apply string_ltb_leb, (Hall _ H1). }
  destruct (decide (P r)) as [Hr|Hr].
  - rewrite filter_cons_True by exact Hr. exact Htail.
  - rewrite filter_cons_False by exact Hr. exact IH.
Qed.

Lemma select_by_user_newest_first (u : Z) t :
  Sorted Server.id_lt t ->
  Server.select_by_user u t = Server.newest_first u t.
Proof.
  intros Hinc. apply Sorted_StronglySorted in Hinc; [|apply _].
  apply (StronglySorted_unique_strong Server.id_desc).
  - intros r1 r2 H1 H2 H12 H21.
    apply (increasing_ids_unique t); [exact Hinc| | |].
    + rewrite select_by_user_Permutation in H1.
      apply list_elem_of_filter in H1. tauto.
    + unfold Server.newest_first in H2.
      rewrite elem_of_rev in H2.
      apply list_elem_of_filter in H2. tauto.
    + apply String.leb_antisym; assumption.
  - apply select_by_user_sorted.
  - apply increasing_rev_desc, Hinc.
  - rewrite select_by_user_Permutation. unfold Server.newest_first.
    apply Permutation_rev.
Qed.

Lemma select_by_user_listed (u : Z) t :
  Server.listed_by_id_desc u t (Server.select_by_user u t).
Proof.
  split; [apply select_by_user_Permutation|].
  split; [apply select_by_user_sorted|apply select_by_user_newest_first].
Qed.
End Tables.

(** ** Appending entries *)

(** Closed decidable facts about sample data, settled by evaluation. *)
Ltac decide_by_computation :=
  match goal with
  | |- ?P => apply (bool_decide_unpack P); vm_compute; exact I
  end.

Lemma response_of_insert {E : Type} `{Server.Entry E}
    (db : Server.Db) (t : list (Server.row E)) (r : Server.row E)
    (set : list (Server.row E) -> Server.Db -> Server.Db) :
  snd (match Server.insert_row db t r with
       | Server.Ok t' => (set t' db, Server.json_success)
       | Server.Throw e => (db, Server.uncaught e)
       end) = Server.uncaught Server.SQLITE_CONSTRAINT_PRIMARYKEY
  <-> Server.row_id r ∈ Server.row_id <$> t.
Proof.
  rewrite <- (insert_row_duplicate db t r).
  destruct (Server.insert_row db t r) as [t'|e]; simpl.
  - split; discriminate.
  - split; congruence.
Qed.

(** C4 (as amended): an append throws the primary-key error exactly when its
    identifier is already the id of a row of the table of the same kind,
    whoever owns that row; identifiers used by the other two kinds play no
    part.  With an identifier new to that table and an owner the foreign key
    accepts, the append succeeds and adds the row at the end of the table. *)
Theorem append_fails_iff_id_in_same_table (db : Server.Db) (userId : Z) :
  (forall body : Expense.t,
     (snd (Server.post_expenses userId body db)
        = Server.uncaught Server.SQLITE_CONSTRAINT_PRIMARYKEY
      <-> Expense.id body ∈ Server.row_id <$> Server.expenses db) /\
     (Expense.id body ∉ Server.row_id <$> Server.expenses db ->
      Server.references_user db userId = true ->
      Server.post_expenses userId body db =
      (Server.set_expenses
         (Server.expenses db ++ [Server.mkRow userId body]) db,
       Server.json_success))) /\
  (forall body : Income.t,
     (snd (Server.post_incomes userId body db)
        = Server.uncaught Server.SQLITE_CONSTRAINT_PRIMARYKEY
      <-> Income.id body ∈ Server.row_id <$> Server.incomes db) /\
     (Income.id body ∉ Server.row_id <$> Server.incomes db ->
      Server.references_user db userId = true ->
      Server.post_incomes userId body db =
      (Server.set_incomes
         (Server.incomes db ++ [Server.mkRow userId body]) db,
       Server.json_success))) /\
  (forall body : Place.t,
     (snd (Server.post_places userId body db)
        = Server.uncaught Server.SQLITE_CONSTRAINT_PRIMARYKEY
      <-> Place.id body ∈ Server.row_id <$> Server.places db) /\
     (Place.id body ∉ Server.row_id <$> Server.places db ->
      Server.references_user db userId = true ->
      Server.post_places userId body db =
      (Server.set_places
         (Server.places db ++ [Server.mkRow userId body]) db,
       Server.json_success))).
Proof.
  split; [|split]; intros body; split.
  - exact (response_of_insert db (Server.expenses db) (Server.mkRow userId body)
             Server.set_expenses).
  - intros Hfresh Hfk. unfold Server.post_expenses.
    rewrite insert_row_fresh by assumption. reflexivity.
  - exact (response_of_insert db (Server.incomes db) (Server.mkRow userId body)
             Server.set_incomes).
  - intros Hfresh Hfk. unfold Server.post_incomes.
    rewrite insert_row_fresh by assumption. reflexivity.
  - exact (response_of_insert db (Server.places db) (Server.mkRow userId body)
             Server.set_places).
  - intros Hfresh Hfk. unfold Server.post_places.
    rewrite insert_row_fresh by assumption. reflexivity.
Qed.

Lemma append_fails_iff_id_in_same_table_witness :
  Server.post_expenses 1 chai two_users =
  (Server.set_expenses
     (Server.expenses two_users ++ [Server.mkRow 1 chai]) two_users,
   Server.json_success).
Proof.
  apply (proj1 (append_fails_iff_id_in_same_table two_users 1) chai).
  - decide_by_computation.
  - vm_compute. reflexivity.
Defined.

(** C4 (as stated) fails both ways.  Owner 1 already has an income with the
    identifier of [chai], yet the expense [chai] is appended; and owner 2, who
    has no entry at all, cannot append an expense with the identifier of
    owner 1's [momos]. *)
Lemma append_duplicate_rule_fails :
  ~ (snd (Server.post_expenses 1 chai two_users)
       = Server.uncaught Server.SQLITE_CONSTRAINT_PRIMARYKEY
     <-> Expense.id chai ∈ Server.owner_ids 1 two_users) /\
  ~ (snd (Server.post_expenses 2 momos two_users)
       = Server.uncaught Server.SQLITE_CONSTRAINT_PRIMARYKEY
     <-> Expense.id momos ∈ Server.owner_ids 2 two_users).
Proof.
  split.
  - intros [_ Hfail].
    assert (Hin : Expense.id chai ∈ Server.owner_ids 1 two_users).
    { decide_by_computation. }
    specialize (Hfail Hin). vm_compute in Hfail. discriminate.
  - intros [Hin _].
    assert (Hfail : snd (Server.post_expenses 2 momos two_users)
                    = Server.uncaught Server.SQLITE_CONSTRAINT_PRIMARYKEY).
    { vm_compute. reflexivity. }
    specialize (Hin Hfail).
    assert (Hout : Expense.id momos ∉ Server.owner_ids 2 two_users).
    { decide_by_computation. }
    exact (Hout Hin).
Qed.

(** ** Listing entries *)

(** C8 (as amended): each listing holds exactly the owner's rows of its kind,
    ordered by identifier, descending in the bytewise order of the text; it is
    most-recently-appended first whenever the rows of the table were appended
    with strictly increasing identifiers. *)
Theorem listings_ordered_by_id (db : Server.Db) (userId : Z) :
  Server.listed_by_id_desc userId (Server.expenses db)
    (Server.d_expenses (Server.get_data userId db)) /\
  Server.listed_by_id_desc userId (Server.incomes db)
    (Server.d_incomes (Server.get_data userId db)) /\
  Server.listed_by_id_desc userId (Server.places db)
    (Server.d_places (Server.get_data userId db)).
Proof. split; [|split]; apply select_by_user_listed. Qed.

Lemma listings_ordered_by_id_witness :
  Server.d_expenses (Server.get_data 1 one_user) =
  Server.newest_first 1 (Server.expenses one_user).
Proof.
  refine (proj2 (proj2 (proj1 (listings_ordered_by_id one_user 1))) _).
  vm_compute. repeat constructor.
Defined.

(** C8 (as stated) fails: after appending the expense with identifier "9" and
    then the one with identifier "10", the listing gives "9" first, although
    "10" is the most recently appended. *)
Lemma listing_not_newest_first :
  Server.row_id <$> Server.d_expenses (Server.get_data 1 nine_then_ten)
    = ["9"; "10"] /\
  Server.row_id <$> Server.newest_first 1 (Server.expenses nine_then_ten)
    = ["10"; "9"] /\
  Server.d_expenses (Server.get_data 1 nine_then_ten) <>
  Server.newest_first 1 (Server.expenses nine_then_ten).
Proof.
  split; [reflexivity|]. split; [reflexivity|].
  intros Heq. apply (f_equal (fmap Server.row_id)) in Heq.
  vm_compute in Heq. discriminate.
Qed.

(** ** Reading the fixed finances *)

Lemma insert_row_keeps_finances {E : Type} `{Server.Entry E}
    (db : Server.Db) (t : list (Server.row E)) (r : Server.row E)
    (set : list (Server.row E) -> Server.Db -> Server.Db) :
  (forall t' d, Server.finances (set t' d) = Server.finances d) ->
  Server.finances
    (fst (match Server.insert_row db t r with
          | Server.Ok t' => (set t' db, Server.json_success)
          | Server.Throw e => (db, Server.uncaught e)
          end)) = Server.finances db.
Proof.
  intros Hset. destruct (Server.insert_row db t r); simpl; auto.
Qed.

Lemma handle_unset_or_default (userId : Z) (rq : Server.request)
    (db : Server.Db) :
  (forall body, rq <> Server.PostFinances userId body) ->
  Server.unset_or_default userId db ->
  Server.unset_or_default userId (fst (Server.handle rq db)).
Proof.
  intros Hrq Hdb. unfold Server.unset_or_default in *.
  destruct rq as [username|u body|u body|u body|u body]; simpl.
  - unfold Server.post_register.
    destruct (Server.insert_user username (Server.users db))
      as [[us newId]|e]; simpl; [|exact Hdb].
    unfold Server.insert_finances. simpl.
    destruct (Server.finances db !! newId) eqn:Hnew; simpl; [exact Hdb|].
    destruct (Server.references_user _ newId); simpl; [|exact Hdb].
    destruct (decide (newId = userId)) as [->|Hne].
    + right. apply lookup_insert_eq.
    + rewrite lookup_insert_ne by exact Hne. exact Hdb.
  - unfold Server.update_finances.
    assert (Hne : u <> userId) by (intros ->; exact (Hrq body eq_refl)).
    destruct (Server.finances db !! u); simpl; [|exact Hdb].
    rewrite lookup_insert_ne by exact Hne. exact Hdb.
  - unfold Server.post_expenses.
    rewrite (insert_row_keeps_finances db _ _ Server.set_expenses); auto.
  - unfold Server.post_incomes.
    rewrite (insert_row_keeps_finances db _ _ Server.set_incomes); auto.
  - unfold Server.post_places.
    rewrite (insert_row_keeps_finances db _ _ Server.set_places); auto.
Qed.

Lemma run_unset_or_default (userId : Z) (rqs : list Server.request)
    (db : Server.Db) :
  (forall body, Server.PostFinances userId body ∉ rqs) ->
  Server.unset_or_default userId db ->
  Server.unset_or_default userId (Server.run rqs db).
Proof.
  revert db. induction rqs as [|rq rqs IH]; intros db Hrqs Hdb; [exact Hdb|].
  simpl. apply IH.
  - intros body Hin. apply (Hrqs body). right. exact Hin.
  - apply handle_unset_or_default; [|exact Hdb].
    intros body ->. apply (Hrqs body). left.
Qed.

(** C9: for an owner who never posted finances, whatever else was requested
    since the database was created, reading the data gives a reply (there is
    no failure case) from which all eight fixed cells are set to 0. *)
Theorem unset_finances_read_zero (fk : bool) (rqs : list Server.request)
    (userId : Z) (st : AppState) :
  (forall body, Server.PostFinances userId body ∉ rqs) ->
  saveFinances
    (fetchData (Server.get_data userId (Server.run rqs (Server.empty_db fk))) st)
  = Server.Finances.mk 0 0 0 0 0 0 0 0.
Proof.
  intros Hrqs.
  pose proof (run_unset_or_default userId rqs (Server.empty_db fk) Hrqs) as Hfin.
  unfold saveFinances, fetchData, Server.get_data. simpl.
  destruct Hfin as [-> | ->]; [left; apply lookup_empty| |]; reflexivity.
Qed.

Lemma unset_finances_read_zero_witness :
  saveFinances
    (fetchData
       (Server.get_data 1
          (Server.run
             [Server.Register "asha"; Server.Register "ravi";
              Server.PostFinances 2 (saveFinances scenario);
              Server.PostExpense 1 momos]
             (Server.empty_db true)))
       scenario)
  = Server.Finances.mk 0 0 0 0 0 0 0 0.
Proof.
  apply (unset_finances_read_zero true
           [Server.Register "asha"; Server.Register "ravi";
            Server.PostFinances 2 (saveFinances scenario);
            Server.PostExpense 1 momos] 1 scenario).
  intros body Hin.
  repeat (apply elem_of_cons in Hin as [Hin|Hin]; [discriminate Hin|]).
  apply elem_of_nil in Hin. exact Hin.
Defined.

(** The same for an identifier that has no [finances] row at all, where the
    route answers with the empty object. *)
Example unregistered_owner_reads_zero :
  Server.d_finances (Server.get_data 7 two_users) = None /\
  saveFinances (fetchData (Server.get_data 7 two_users) scenario)
  = Server.Finances.mk 0 0 0 0 0 0 0 0.
Proof. split; reflexivity. Qed.

(** Posted finances are what the next read gives back, [flightTotal]
    included. *)
Example posted_finances_read_back :
  saveFinances
    (fetchData
       (Server.get_data 1
          (fst (Server.post_finances 1 (saveFinances scenario) two_users)))
       initial)
  = saveFinances scenario.
Proof. reflexivity. Qed.

(** * Further properties of the calculator *)

Lemma filter_cons_false {A : Type} (p : A -> bool) (x : A) (l : list A) :
  p x = false -> List.filter p (x :: l) = List.filter p l.
Proof. intros Hx. simpl. rewrite Hx. reflexivity. Qed.

Lemma filter_cons_true {A : Type} (p : A -> bool) (x : A) (l : list A) :
  p x = true -> List.filter p (x :: l) = x :: List.filter p l.
Proof. intros Hx. simpl. rewrite Hx. reflexivity. Qed.

Lemma tag_eqb_other (a b c : string) : a = b -> b <> c -> String.eqb a c = false.
Proof. intros -> Hbc. apply String.eqb_neq, Hbc. Qed.

Lemma exact_pendingPlatinum (st : AppState) (v : Z) :
  tripRemainingBalance st =
    totalBudget st - platinumTicket st - myFlightShare st - stay st
    + expectedIncoming st + tripDynamicIncome st - tripDynamicSpent st /\
  tripEffectiveSpent (setPendingPlatinum v st) =
    tripEffectiveSpent st + pendingPlatinum st - v /\
  tripRemainingBalance (setPendingPlatinum v st) = tripRemainingBalance st.
Proof.
  assert (Hbal : forall s, tripRemainingBalance s =
            totalBudget s - platinumTicket s - myFlightShare s - stay s
            + expectedIncoming s + tripDynamicIncome s - tripDynamicSpent s).
  { intros s. unfold tripRemainingBalance, tripEffectiveSpent,
      tripTotalIncoming. lia. }
  split; [apply Hbal|]. split.
  - unfold tripEffectiveSpent.
    change (tripDynamicSpent (setPendingPlatinum v st))
      with (tripDynamicSpent st).
    cbn [setPendingPlatinum platinumTicket pendingPlatinum myFlightShare stay].
    lia.
  - rewrite !Hbal. reflexivity.
Qed.

(** X1: pendingPlatinum cancels out of the remaining balance for every ledger.
    With whole numbers whose magnitudes add up to less than 2^53, before and
    after the edit, the balance the component computes is exactly
    totalBudget - platinumTicket - myFlightShare - stay + expectedIncoming +
    the trip incomes - the trip expenses, so editing pendingPlatinum moves
    tripEffectiveSpent by the opposite amount and leaves tripRemainingBalance
    and safeDailySpend as they are. *)
Theorem pendingPlatinum_cancels (st : AppState) (v : Z) :
  Double.trip_magnitude st < 2 ^ 53 ->
  Double.trip_magnitude (setPendingPlatinum v st) < 2 ^ 53 ->
  Double.intval (Double.tripRemainingBalance st) =
    Some (totalBudget st - platinumTicket st - myFlightShare st - stay st
          + expectedIncoming st + total Income.amount (tripIncomes st)
          - total Expense.amount (tripExpenses st)) /\
  (exists spent : Z,
     Double.intval (Double.tripEffectiveSpent st) = Some spent /\
     Double.intval (Double.tripEffectiveSpent (setPendingPlatinum v st))
       = Some (spent + pendingPlatinum st - v)) /\
  Double.tripRemainingBalance (setPendingPlatinum v st)
    = Double.tripRemainingBalance st /\
  Double.safeDailySpend (setPendingPlatinum v st) = Double.safeDailySpend st.
Proof.
  intros Hb Hb'.
  destruct (exact_pendingPlatinum st v) as (Hbal & Hspent & Hsame).
  destruct (trip_figures_intval st Hb) as (E & _ & B).
  destruct (trip_figures_intval _ Hb') as (E' & _ & _).
  destruct (trip_figures_exact st Hb) as (_ & _ & _ & _ & X).
  destruct (trip_figures_exact _ Hb') as (_ & _ & _ & _ & X').
  assert (HB : Double.tripRemainingBalance (setPendingPlatinum v st)
               = Double.tripRemainingBalance st).
  { rewrite X, X', Hsame. reflexivity. }
  split; [rewrite B, Hbal; reflexivity|]. split.
  - exists (tripEffectiveSpent st). rewrite E, E', Hspent. split; reflexivity.
  - split; [exact HB|]. unfold Double.safeDailySpend. rewrite HB. reflexivity.
Qed.

Lemma pendingPlatinum_cancels_witness :
  Double.tripRemainingBalance (setPendingPlatinum 0 scenario)
    = Double.tripRemainingBalance scenario /\
  Double.safeDailySpend (setPendingPlatinum 0 scenario)
    = Double.safeDailySpend scenario.
Proof.
  refine (proj2 (proj2 (pendingPlatinum_cancels scenario 0 _ _)));
    vm_compute; reflexivity.
Defined.

(** X2: an expense or income whose accountId is neither "trip" nor "savings"
    changes none of the nine figures when it is added, although the "all"
    view of the expenses tab shows it; the "trip" and "savings" views do
    not. *)
Theorem untagged_entries_count_nowhere (st : AppState)
    (e : Expense.t) (i : Income.t) :
  Expense.accountId e <> "trip" -> Expense.accountId e <> "savings" ->
  Income.accountId i <> "trip" -> Income.accountId i <> "savings" ->
  figures (handleAddExpense e st) = figures st /\
  figures (handleAddIncome i st) = figures st /\
  In e (filteredExpenses "all" (handleAddExpense e st)) /\
  filteredExpenses "trip" (handleAddExpense e st) = filteredExpenses "trip" st /\
  filteredExpenses "savings" (handleAddExpense e st)
    = filteredExpenses "savings" st.
Proof.
  intros Het Hes Hit His.
  apply String.eqb_neq in Het, Hes, Hit, His.
  assert (Hte : tripExpenses (handleAddExpense e st) = tripExpenses st).
  { unfold tripExpenses. cbn [handleAddExpense setExpenses expenses].
    apply filter_cons_false, Het. }
  assert (Hse : savingsExpenses (handleAddExpense e st) = savingsExpenses st).
  { unfold savingsExpenses. cbn [handleAddExpense setExpenses expenses].
    apply filter_cons_false, Hes. }
  assert (Hti : tripIncomes (handleAddIncome i st) = tripIncomes st).
  { unfold tripIncomes. cbn [handleAddIncome setIncomes incomes].
    apply filter_cons_false, Hit. }
  assert (Hsi : savingsIncomes (handleAddIncome i st) = savingsIncomes st).
  { unfold savingsIncomes. cbn [handleAddIncome setIncomes incomes].
    apply filter_cons_false, His. }
  repeat split.
  - unfold figures, safeDailySpend, totalSavingsBalance, tripRemainingBalance,
      tripEffectiveSpent, tripTotalIncoming, tripDynamicSpent,
      savingsDynamicSpent.
    rewrite Hte, Hse. reflexivity.
  - unfold figures, safeDailySpend, totalSavingsBalance, tripRemainingBalance,
      tripEffectiveSpent, tripTotalIncoming, tripDynamicIncome,
      savingsDynamicIncome.
    rewrite Hti, Hsi. reflexivity.
  - left. reflexivity.
  - exact Hte.
  - exact Hse.
Qed.

Lemma untagged_entries_count_nowhere_witness :
  figures (handleAddExpense
             (Expense.mk "1700000000006" "Gift" 900 "Shopping" "29 Mar"
                         "11:00 AM" "Trip") scenario)
  = figures scenario.
Proof.
  refine (proj1 (untagged_entries_count_nowhere scenario
                   (Expense.mk "1700000000006" "Gift" 900 "Shopping" "29 Mar"
                               "11:00 AM" "Trip")
                   (Income.mk "1700000000007" "Gift" 900 "Custom source"
                              "29 Mar" "")
                   _ _ _ _)); discriminate.
Defined.

Section AddingEntries.
Variable st : AppState.

Lemma tripExpenses_add (e : Expense.t) :
  tripExpenses (handleAddExpense e st) =
  if String.eqb (Expense.accountId e) "trip" then e :: tripExpenses st
  else tripExpenses st.
Proof. reflexivity. Qed.






End AddingEntries.











(** * The planner, explore and session parts of the component *)

Lemma planner_step_rides_nonneg (p : Planner) (ev : PlannerEvent) :
  rides_nonneg p -> rides_nonneg (planner_step p ev).
Proof.
  unfold rides_nonneg. intros (Hm & Ha & Hc).
  destruct ev; simpl; unfold decrement, increment; repeat split; lia.
Qed.

(** X7: the ride counts of the transport estimator never go below 0, whatever
    is pressed and in whatever order, so the estimated transport cost is
    never negative; a minus undoes a plus, and at 0 a minus does nothing. *)
Theorem rides_never_negative (p : Planner) (evs : list PlannerEvent) :
  0 <= metroRides p -> 0 <= autoRides p -> 0 <= cabRides p ->
  (0 <= metroRides (fold_left planner_step evs p) /\
   0 <= autoRides (fold_left planner_step evs p) /\
   0 <= cabRides (fold_left planner_step evs p) /\
   0 <= transportCost (fold_left planner_step evs p)) /\
  (forall count, 0 <= count -> decrement (increment count) = count) /\
  decrement 0 = 0.
Proof.
  intros Hm Ha Hc. split.
  - assert (H : rides_nonneg (fold_left planner_step evs p)).
    { assert (H0 : rides_nonneg p) by (repeat split; assumption).
      clear Hm Ha Hc. revert p H0.
      induction evs as [|ev evs IH]; intros p H0; simpl; [exact H0|].
      apply IH, planner_step_rides_nonneg, H0. }
    destruct H as (H1 & H2 & H3). unfold transportCost.
    repeat split; try assumption. lia.
  - split; [|reflexivity].
    intros count Hcount. unfold decrement, increment. lia.
Qed.

Lemma rides_never_negative_witness :
  0 <= transportCost
         (fold_left planner_step
            [CabMinus; CabMinus; AutoMinus; MetroPlus; CabMinus] planner0).
Proof.
  refine (proj2 (proj2 (proj2 (proj1
            (rides_never_negative planner0
               [CabMinus; CabMinus; AutoMinus; MetroPlus; CabMinus]
               _ _ _))))); vm_compute; discriminate.
Defined.

Lemma filter_four_ways {A : Type} (p1 p2 p3 p4 : A -> bool) (l : list A) :
  (forall x, In x l ->
     (p1 x = true /\ p2 x = false /\ p3 x = false /\ p4 x = false) \/
     (p1 x = false /\ p2 x = true /\ p3 x = false /\ p4 x = false) \/
     (p1 x = false /\ p2 x = false /\ p3 x = true /\ p4 x = false) \/
     (p1 x = false /\ p2 x = false /\ p3 x = false /\ p4 x = true)) ->
  Permutation
    (List.filter p1 l ++ List.filter p2 l ++ List.filter p3 l ++ List.filter p4 l)
    l.
Proof.
  induction l as [|x l IH]; intros Hall; [reflexivity|].
  assert (IH' := IH (fun y Hy => Hall y (or_intror Hy))).
  destruct (Hall x (or_introl eq_refl))
    as [(H1 & H2 & H3 & H4)|[(H1 & H2 & H3 & H4)|[(H1 & H2 & H3 & H4)
       |(H1 & H2 & H3 & H4)]]];
    simpl; rewrite H1, H2, H3, H4; simpl.
  - constructor. exact IH'.
  - rewrite <- Permutation_middle. constructor. exact IH'.
  - rewrite app_assoc. rewrite <- Permutation_middle.
    rewrite <- app_assoc. constructor. exact IH'.
  - rewrite !app_assoc. rewrite <- Permutation_middle.
    rewrite <- !app_assoc. constructor. exact IH'.
Qed.

(** X8: when every place has one of the four categories, the four lists of
    the explore tab together hold every place exactly once; a place with any
    other category is in none of the four lists. *)
Theorem explore_lists_partition (st : AppState) :
  (Forall known_category (places st) ->
   Permutation
     (streetFood st ++ casualDining st ++ premium st ++ hotspots st)
     (places st)) /\
  (forall p, ~ known_category p ->
     ~ In p (streetFood st) /\ ~ In p (casualDining st) /\
     ~ In p (premium st) /\ ~ In p (hotspots st)).
Proof.
  split.
  - intros Hall. apply filter_four_ways.
    intros p Hp. rewrite List.Forall_forall in Hall.
    destruct (Hall p Hp) as [H|[H|[H|H]]]; rewrite H; simpl; tauto.
  - intros p Hp. unfold known_category in Hp.
    unfold streetFood, casualDining, premium, hotspots.
    rewrite !List.filter_In, !String.eqb_eq. tauto.
Qed.

Lemma explore_lists_partition_witness :
  Permutation
    (streetFood (handleAddPlace karims scenario)
     ++ casualDining (handleAddPlace karims scenario)
     ++ premium (handleAddPlace karims scenario)
     ++ hotspots (handleAddPlace karims scenario))
    [karims].
Proof.
  apply (proj1 (explore_lists_partition (handleAddPlace karims scenario))).
  apply List.Forall_cons; [|apply List.Forall_nil].
  right. left. reflexivity.
Defined.

Lemma session_step_ok (s : Session) (ev : SessionEvent) :
  session_ok s -> session_ok (session_step s ev).
Proof.
  unfold session_ok. intros (Hmain & Htok & Huser).
  destruct ev; simpl; repeat split; try assumption; try discriminate; eauto.
  destruct (token s) as [t|]; simpl; [eauto|discriminate].
Qed.

(** X9: from mounting on, whatever the order of timer, sign-in, sign-out and
    401 events, the main screen is only ever shown while a token is held, and
    the token and username cells always equal the two stored items. *)
Theorem session_keeps_token (stored_token0 stored_username0 : option string)
    (evs : list SessionEvent) :
  session_ok (fold_left session_step evs (mount stored_token0 stored_username0)).
Proof.
  assert (H0 : session_ok (mount stored_token0 stored_username0)).
  { repeat split. discriminate. }
  revert H0. generalize (mount stored_token0 stored_username0).
  induction evs as [|ev evs IH]; intros s Hs; simpl; [exact Hs|].
  apply IH, session_step_ok, Hs.
Qed.

(** * The authenticate middleware *)

Lemma split_space_no_space (s : string) :
  Server.no_space s -> Server.split_space s = [s].
Proof.
  unfold Server.no_space.
  induction s as [|c s IH]; intros Hs; [reflexivity|].
  simpl in Hs. apply List.Forall_cons_iff in Hs as [Hc Hs].
  simpl. rewrite (IH Hs).
  destruct (Ascii.eqb_spec c Server.space) as [->|_]; [contradiction|].
  reflexivity.
Qed.

Lemma split_space_bearer (t : string) :
  Server.split_space (getHeaders (Some t)) = "Bearer" :: Server.split_space t.
Proof.
  unfold getHeaders. cbv [String.append]. simpl.
  destruct (Server.split_space t) as [|w ws] eqn:Hsplit; [|reflexivity].
  destruct t as [|c t]; simpl in Hsplit; [discriminate|].
  destruct (Ascii.eqb c Server.space); [discriminate|].
  destruct (Server.split_space t); discriminate.
Qed.

(** X10: sent with the header the client builds, a non-empty token without a
    space reaches the verifier unchanged: the request goes on with the user
    id the verifier gives, or ends with 401 "Invalid token" when it refuses.
    In general only the part of the token before its first space is
    verified. *)
Theorem client_header_authenticates (verify : string -> option Z) (t : string) :
  (forall w ws, Server.split_space t = w :: ws -> w <> "" ->
     Server.authenticate verify (Some (getHeaders (Some t))) =
     match verify w with
     | Some userId => inl userId
     | None => inr (Server.json_error 401 "Invalid token")
     end) /\
  (Server.no_space t -> t <> "" ->
     Server.authenticate verify (Some (getHeaders (Some t))) =
     match verify t with
     | Some userId => inl userId
     | None => inr (Server.json_error 401 "Invalid token")
     end).
Proof.
  assert (Hgen : forall w ws, Server.split_space t = w :: ws -> w <> "" ->
     Server.authenticate verify (Some (getHeaders (Some t))) =
     match verify w with
     | Some userId => inl userId
     | None => inr (Server.json_error 401 "Invalid token")
     end).
  { intros w ws Hsplit Hw. unfold Server.authenticate.
    rewrite split_space_bearer, Hsplit. simpl.
    apply String.eqb_neq in Hw. rewrite Hw. reflexivity. }
  split; [exact Hgen|].
  intros Hns Ht. apply (Hgen t []); [|exact Ht].
  apply split_space_no_space, Hns.
Qed.

Lemma client_header_authenticates_witness :
  Server.authenticate
    (fun tok => if String.eqb tok "eyJhbGciOiJIUzI1NiJ9.e30.sig" then Some 1 else None)
    (Some (getHeaders (Some "eyJhbGciOiJIUzI1NiJ9.e30.sig")))
  = inl 1.
Proof.
  refine (proj2 (client_header_authenticates
                   (fun tok => if String.eqb tok "eyJhbGciOiJIUzI1NiJ9.e30.sig"
                               then Some 1 else None)
                   "eyJhbGciOiJIUzI1NiJ9.e30.sig") _ _).
  - unfold Server.no_space. simpl. repeat constructor; discriminate.
  - discriminate.
Defined.

(** X11: a request without the header, with a header of a single word (a bare
    token, say) or with nothing after the first space is answered 401
    "Unauthorized", whatever the verifier would say of it. *)
Theorem header_without_token_unauthorized (verify : string -> option Z) :
  Server.authenticate verify None
    = inr (Server.json_error 401 "Unauthorized") /\
  (forall h, Server.no_space h ->
     Server.authenticate verify (Some h)
       = inr (Server.json_error 401 "Unauthorized")) /\
  (forall h, Server.no_space h ->
     Server.authenticate verify (Some (String.append h " "))
       = inr (Server.json_error 401 "Unauthorized")).
Proof.
  split; [reflexivity|]. split.
  - intros h Hh. unfold Server.authenticate.
    rewrite (split_space_no_space h Hh). reflexivity.
  - intros h Hh. unfold Server.authenticate.
    assert (Hsplit : Server.split_space (String.append h " ") = [h; ""]).
    { unfold Server.no_space in Hh.
      induction h as [|c h IH]; [reflexivity|].
      simpl in Hh. apply List.Forall_cons_iff in Hh as [Hc Hh].
      change (String.append (String c h) " ")
        with (String c (String.append h " ")).
      simpl. rewrite (IH Hh).
      destruct (Ascii.eqb_spec c Server.space) as [->|_]; [contradiction|].
      reflexivity. }
    rewrite Hsplit. reflexivity.
Qed.

Lemma header_without_token_unauthorized_witness :
  Server.authenticate (fun _ => Some 1) (Some "eyJhbGciOiJIUzI1NiJ9.e30.sig")
  = inr (Server.json_error 401 "Unauthorized").
Proof.
  apply (proj1 (proj2 (header_without_token_unauthorized (fun _ => Some 1)))).
  unfold Server.no_space. simpl. repeat constructor; discriminate.
Defined.

(** * What each request does to the database *)

Lemma foldr_max_ge (l : list Z) (x : Z) : x ∈ l -> x <= foldr Z.max 0 l.
Proof.
  induction l as [|y l IH]; intros Hx; [inversion Hx|].
  simpl. apply elem_of_cons in Hx as [->|Hx]; [lia|].
  specialize (IH Hx). lia.
Qed.

Lemma lastInsertRowid_above (us : list Server.Users.row) (u : Z) :
  u ∈ Server.Users.id <$> us -> u < Server.lastInsertRowid us.
Proof.
  intros Hu. unfold Server.lastInsertRowid.
  pose proof (foldr_max_ge _ _ Hu). lia.
Qed.

Lemma references_new_user (db : Server.Db) (us : list Server.Users.row)
    (i : Z) (name : string) :
  Server.references_user
    (Server.set_users (us ++ [Server.Users.mk i name]) db) i = true.
Proof.
  unfold Server.references_user. simpl.
  rewrite bool_decide_eq_true_2; [apply orb_true_r|].
  rewrite fmap_app. apply elem_of_app. right. simpl. left.
Qed.

Lemma post_register_outcome (username : string) (db : Server.Db) :
  register_outcome username db (Server.post_register username db).
Proof.
  unfold Server.post_register, Server.insert_user.
  case_bool_decide as Hname; simpl; [constructor; exact Hname|].
  unfold Server.insert_finances.
  change (Server.finances (Server.set_users ?us db)) with (Server.finances db).
  destruct (Server.finances db !! Server.lastInsertRowid (Server.users db))
    as [row|] eqn:Hrow.
  - apply register_half; [exact Hname|]. rewrite Hrow. eauto.
  - rewrite (references_new_user db (Server.users db)
               (Server.lastInsertRowid (Server.users db)) username).
    apply register_done; assumption.
Qed.

(** The two ways an insertion into an entry table can go. *)
Lemma insert_row_cases {E : Type} `{Server.Entry E}
    (db : Server.Db) (t : list (Server.row E)) (r : Server.row E) :
  (Server.insert_row db t r = Server.Ok (t ++ [r]) /\
   (Server.row_id r ∉ Server.row_id <$> t) /\
   Server.references_user db (Server.user_id r) = true) \/
  (exists e, Server.insert_row db t r = Server.Throw e).
Proof.
  unfold Server.insert_row.
  case_bool_decide as Hid; [right; eauto|].
  destruct (Server.references_user db (Server.user_id r)); [left|right]; eauto.
Qed.

(** A property of the database that every request keeps holds after a run. *)
Lemma run_keeps (P : Server.Db -> Prop) :
  (forall rq db, P db -> P (fst (Server.handle rq db))) ->
  forall rqs db, P db -> P (Server.run rqs db).
Proof.
  intros Hstep rqs. induction rqs as [|rq rqs IH]; intros db Hdb; [exact Hdb|].
  simpl. apply IH, Hstep, Hdb.
Qed.

Lemma set_finances_same (db : Server.Db) :
  Server.set_finances (Server.finances db) db = db.
Proof. destruct db; reflexivity. Qed.

Lemma handle_effect (rq : Server.request) (db : Server.Db) :
  effect db rq (fst (Server.handle rq db)).
Proof.
  destruct rq as [username|u body|u body|u body|u body]; simpl.
  - destruct (post_register_outcome username db) as [Hin|Hout Hnone|Hout Hsome];
      simpl.
    + constructor.
    + apply effect_register; [exact Hout|]. right. split; [reflexivity|exact Hnone].
    + apply (effect_register db username Hout (Server.finances db)).
      left. split; [reflexivity|exact Hsome].
  - unfold Server.update_finances.
    destruct (Server.finances db !! u) as [row|] eqn:Hrow.
    + apply effect_finances. rewrite Hrow. eauto.
    + rewrite set_finances_same. constructor.
  - unfold Server.post_expenses.
    destruct (insert_row_cases db (Server.expenses db) (Server.mkRow u body))
      as [(-> & Hid & Hfk)|[e ->]]; simpl; [|constructor].
    apply effect_expense; assumption.
  - unfold Server.post_incomes.
    destruct (insert_row_cases db (Server.incomes db) (Server.mkRow u body))
      as [(-> & Hid & Hfk)|[e ->]]; simpl; [|constructor].
    apply effect_income; assumption.
  - unfold Server.post_places.
    destruct (insert_row_cases db (Server.places db) (Server.mkRow u body))
      as [(-> & Hid & Hfk)|[e ->]]; simpl; [|constructor].
    apply effect_place; assumption.
Qed.

(** ** Invariants *)

Lemma effect_finances_match (db db' : Server.Db) (rq : Server.request) :
  effect db rq db' ->
  Server.finances_match_users db -> Server.finances_match_users db'.
Proof.
  unfold Server.finances_match_users.
  intros Heff Hdb. destruct Heff as [rq|username Hname fin Hfin|u body Hrow
    |u body _ _|u body _ _|u body _ _]; try exact Hdb; simpl.
  - destruct Hfin as [[-> Hsome]|[-> Hnone]].
    + apply Hdb, lastInsertRowid_above in Hsome. lia.
    + intros u. rewrite lookup_insert_is_Some', fmap_app, elem_of_app, Hdb.
      simpl. rewrite list_elem_of_singleton. intuition congruence.
  - intros v. rewrite lookup_insert_is_Some', <- Hdb.
    split; [intros [<-|Hv]; assumption|tauto].
Qed.

Lemma foldr_max_init (a : Z) (l : list Z) :
  0 <= a -> foldr Z.max a l = Z.max a (foldr Z.max 0 l).
Proof. intros Ha. induction l as [|y l IH]; simpl; lia. Qed.

Lemma foldr_max_seq (n : nat) :
  foldr Z.max 0 (Z.of_nat <$> seq 1 n) = Z.of_nat n.
Proof.
  induction n as [|n IH]; [reflexivity|].
  rewrite seq_S, fmap_app, foldr_app. simpl.
  rewrite foldr_max_init by lia. rewrite IH. lia.
Qed.

Lemma effect_users_numbered (db db' : Server.Db) (rq : Server.request) :
  effect db rq db' -> Server.users_numbered db -> Server.users_numbered db'.
Proof.
  unfold Server.users_numbered.
  intros Heff [Hids Hnames]. destruct Heff as [rq|username Hname fin Hfin
    |u body Hrow|u body _ _|u body _ _|u body _ _]; try (split; assumption).
  simpl. split.
  - rewrite fmap_app, length_app, Nat.add_1_r, seq_S, fmap_app. simpl.
    unfold Server.lastInsertRowid. rewrite Hids at 1 2.
    rewrite foldr_max_seq. do 2 f_equal. lia.
  - rewrite fmap_app. apply NoDup_app. split; [exact Hnames|].
    split; [|apply NoDup_singleton].
    intros x Hx Hx'. apply list_elem_of_singleton in Hx'. subst x.
    exact (Hname Hx).
Qed.

Lemma NoDup_snoc_fresh {A : Type} (l : list A) (x : A) :
  NoDup l -> x ∉ l -> NoDup (l ++ [x]).
Proof.
  intros Hl Hx. apply NoDup_app. split; [exact Hl|].
  split; [|apply NoDup_singleton].
  intros y Hy Hy'. apply list_elem_of_singleton in Hy'. subst y. exact (Hx Hy).
Qed.

Lemma effect_ids_unique (db db' : Server.Db) (rq : Server.request) :
  effect db rq db' -> Server.ids_unique db -> Server.ids_unique db'.
Proof.
  unfold Server.ids_unique.
  intros Heff (He & Hi & Hp). destruct Heff as [rq|username Hname fin Hfin
    |u body Hrow|u body Hid _|u body Hid _|u body Hid _];
    simpl; repeat split; try assumption;
    rewrite fmap_app; apply NoDup_snoc_fresh; assumption.
Qed.

Lemma effect_foreign_keys (db db' : Server.Db) (rq : Server.request) :
  effect db rq db' -> Server.foreign_keys db' = Server.foreign_keys db.
Proof. destruct 1; reflexivity. Qed.

Lemma effect_users_prefix (db db' : Server.Db) (rq : Server.request) :
  effect db rq db' -> Server.users db `prefix_of` Server.users db'.
Proof. destruct 1; simpl; try reflexivity. apply prefix_app_r. reflexivity. Qed.

Lemma references_user_registered (db : Server.Db) (u : Z) :
  Server.foreign_keys db = true -> Server.references_user db u = true ->
  u ∈ Server.Users.id <$> Server.users db.
Proof.
  unfold Server.references_user. intros -> H. simpl in H.
  apply bool_decide_eq_true in H. exact H.
Qed.

Lemma effect_owners_registered (db db' : Server.Db) (rq : Server.request) :
  effect db rq db' -> Server.foreign_keys db = true ->
  Server.owners_registered db -> Server.owners_registered db'.
Proof.
  unfold Server.owners_registered.
  intros Heff Hfk (He & Hi & Hp). destruct Heff as [rq|username Hname fin Hfin
    |u body Hrow|u body _ Hu|u body _ Hu|u body _ Hu]; simpl.
  - auto.
  - repeat split; intros r Hr; rewrite fmap_app, elem_of_app; left; auto.
  - auto.
  - apply references_user_registered in Hu; [|exact Hfk].
    repeat split; try assumption.
    intros r Hr. apply elem_of_app in Hr as [Hr|Hr]; [auto|].
    apply list_elem_of_singleton in Hr. subst r. exact Hu.
  - apply references_user_registered in Hu; [|exact Hfk].
    repeat split; try assumption.
    intros r Hr. apply elem_of_app in Hr as [Hr|Hr]; [auto|].
    apply list_elem_of_singleton in Hr. subst r. exact Hu.
  - apply references_user_registered in Hu; [|exact Hfk].
    repeat split; try assumption.
    intros r Hr. apply elem_of_app in Hr as [Hr|Hr]; [auto|].
    apply list_elem_of_singleton in Hr. subst r. exact Hu.
Qed.

(** The database reached from the empty one by any run of requests. *)
Lemma run_consistent (fk : bool) (rqs : list Server.request) :
  Server.finances_match_users (Server.run rqs (Server.empty_db fk)) /\
  Server.users_numbered (Server.run rqs (Server.empty_db fk)) /\
  Server.ids_unique (Server.run rqs (Server.empty_db fk)) /\
  (fk = true ->
   Server.owners_registered (Server.run rqs (Server.empty_db fk))).
Proof.
  split; [|split; [|split]].
  - apply run_keeps.
    + intros rq db. apply (effect_finances_match _ _ rq), handle_effect.
    + intros u. simpl. rewrite lookup_empty, elem_of_nil.
      split; [intros [x Hx]; discriminate|tauto].
  - apply run_keeps.
    + intros rq db. apply (effect_users_numbered _ _ rq), handle_effect.
    + split; [reflexivity|constructor].
  - apply run_keeps.
    + intros rq db. apply (effect_ids_unique _ _ rq), handle_effect.
    + repeat split; constructor.
  - intros ->.
    apply (run_keeps (fun db => Server.foreign_keys db = true /\
                                Server.owners_registered db)).
    + intros rq db [Hfk Hdb]. split.
      * rewrite (effect_foreign_keys _ _ rq (handle_effect rq db)). exact Hfk.
      * apply (effect_owners_registered _ _ rq (handle_effect rq db));
          assumption.
    + split; [reflexivity|].
      repeat split; intros r Hr; inversion Hr.
Qed.

Lemma reached_consistent (db : Server.Db) :
  Server.reached db ->
  Server.finances_match_users db /\ Server.users_numbered db /\
  Server.ids_unique db /\
  (Server.foreign_keys db = true -> Server.owners_registered db).
Proof.
  intros (fk & rqs & ->).
  destruct (run_consistent fk rqs) as (H1 & H2 & H3 & H4).
  split; [exact H1|]. split; [exact H2|]. split; [exact H3|].
  intros Hfk. apply H4.
  assert (Hkeep : Server.foreign_keys (Server.run rqs (Server.empty_db fk)) = fk).
  { apply (run_keeps (fun d => Server.foreign_keys d = fk)); [|reflexivity].
    intros rq d Hd.
    rewrite (effect_foreign_keys _ _ rq (handle_effect rq d)). exact Hd. }
  congruence.
Qed.

Lemma two_users_reached : Server.reached two_users.
Proof. eexists _, _. reflexivity. Qed.

(** X12: in every database the server can reach, the registered users carry
    the ids 1, 2, 3, ... in the order they registered, and no two of them
    share a username. *)
Theorem users_numbered_in_order (db : Server.Db) :
  Server.reached db ->
  Server.user_ids db = Z.of_nat <$> seq 1 (length (Server.users db)) /\
  NoDup (Server.Users.username <$> Server.users db).
Proof. intros Hdb. apply (reached_consistent db Hdb). Qed.

Lemma users_numbered_in_order_witness :
  Server.user_ids two_users = [1; 2].
Proof.
  exact (proj1 (users_numbered_in_order two_users two_users_reached)).
Defined.

(** X13: in every database the server can reach, the finances table has a row
    for a user id exactly when that id belongs to a registered user. *)
Theorem finances_row_iff_registered (db : Server.Db) (u : Z) :
  Server.reached db ->
  (is_Some (Server.finances db !! u) <-> u ∈ Server.user_ids db).
Proof. intros Hdb. apply (reached_consistent db Hdb). Qed.

Lemma finances_row_iff_registered_witness :
  is_Some (Server.finances two_users !! 2).
Proof.
  apply (finances_row_iff_registered two_users 2 two_users_reached).
  decide_by_computation.
Defined.

(** X14: in every database the server can reach, no identifier occurs twice
    within the expenses table, within the incomes table or within the places
    table. *)
Theorem ids_unique_per_table (db : Server.Db) :
  Server.reached db ->
  NoDup (Server.row_id <$> Server.expenses db) /\
  NoDup (Server.row_id <$> Server.incomes db) /\
  NoDup (Server.row_id <$> Server.places db).
Proof. intros Hdb. apply (reached_consistent db Hdb). Qed.

Lemma ids_unique_per_table_witness :
  NoDup (Server.row_id <$> Server.expenses two_users).
Proof.
  exact (proj1 (ids_unique_per_table two_users two_users_reached)).
Defined.

Lemma select_by_user_none {E : Type} `{Server.Entry E}
    (u : Z) (t : list (Server.row E)) :
  (forall r, r ∈ t -> Server.user_id r <> u) -> Server.select_by_user u t = [].
Proof.
  intros Hnone. unfold Server.select_by_user.
  replace (filter (fun r => Server.user_id r = u) t) with (@nil (Server.row E));
    [reflexivity|].
  symmetry. induction t as [|r t IH]; [reflexivity|].
  rewrite filter_cons_False by (apply Hnone; left).
  apply IH. intros r' Hr'. apply Hnone. right. exact Hr'.
Qed.

(** X15: when foreign keys are enforced, every entry of a database the server
    can reach belongs to a registered user; so for an id that no user has,
    the data route returns the empty object and three empty lists. *)
Theorem entries_belong_to_users (db : Server.Db) (u : Z) :
  Server.reached db -> Server.foreign_keys db = true ->
  Server.owners_registered db /\
  (u ∉ Server.user_ids db ->
   Server.get_data u db = Server.mkData None [] [] []).
Proof.
  intros Hdb Hfk.
  destruct (reached_consistent db Hdb) as (Hfin & _ & _ & Hown).
  specialize (Hown Hfk). split; [exact Hown|].
  intros Hu. destruct Hown as (He & Hi & Hp).
  unfold Server.get_data. f_equal.
  - destruct (Server.finances db !! u) as [row|] eqn:Hrow; [|reflexivity].
    exfalso. apply Hu, Hfin. rewrite Hrow. eauto.
  - apply select_by_user_none. intros r Hr Heq. apply Hu. rewrite <- Heq.
    exact (He r Hr).
  - apply select_by_user_none. intros r Hr Heq. apply Hu. rewrite <- Heq.
    exact (Hi r Hr).
  - apply select_by_user_none. intros r Hr Heq. apply Hu. rewrite <- Heq.
    exact (Hp r Hr).
Qed.

Lemma entries_belong_to_users_witness :
  Server.get_data 7 two_users = Server.mkData None [] [] [].
Proof.
  apply (proj2 (entries_belong_to_users two_users 7 two_users_reached eq_refl)).
  decide_by_computation.
Defined.

(** ** Registration *)

(** X16: on a database the server can reach, registering a username that is
    taken answers 400 "Username already exists" and changes nothing;
    registering a new one answers with a token for the next id (the number of
    users plus one), adds the user at the end and gives it an all-zero
    finances row: for a new username neither insert throws. *)
Theorem register_on_reached (db : Server.Db) (username : string) :
  Server.reached db ->
  (username ∈ Server.Users.username <$> Server.users db ->
   Server.post_register username db =
   (db, Server.json_error 400 "Username already exists")) /\
  (username ∉ Server.Users.username <$> Server.users db ->
   snd (Server.post_register username db) =
     Server.json_token (Z.of_nat (length (Server.users db)) + 1) username /\
   Server.users (fst (Server.post_register username db)) =
     Server.users db
     ++ [Server.Users.mk (Z.of_nat (length (Server.users db)) + 1) username] /\
   Server.finances (fst (Server.post_register username db))
     !! (Z.of_nat (length (Server.users db)) + 1)
   = Some Server.Finances.default).
Proof.
  intros Hdb.
  destruct (reached_consistent db Hdb) as (Hfin & [Hids _] & _ & _).
  assert (Hnext : Server.lastInsertRowid (Server.users db)
                  = Z.of_nat (length (Server.users db)) + 1).
  { unfold Server.lastInsertRowid. rewrite Hids, foldr_max_seq. lia. }
  pose proof (post_register_outcome username db) as Hout.
  split; intros Hname.
  - destruct Hout as [_|Hno _|Hno _]; [reflexivity| |]; contradiction.
  - destruct Hout as [Hyes|_ Hnone|_ Hsome]; [contradiction| |].
    + simpl. rewrite Hnext. repeat split. apply lookup_insert_eq.
    + exfalso. apply Hfin, lastInsertRowid_above in Hsome. lia.
Qed.

Lemma register_on_reached_witness :
  snd (Server.post_register "meera" two_users) = Server.json_token 3 "meera".
Proof.
  refine (proj1 (proj2 (register_on_reached two_users "meera"
                          two_users_reached) _)).
  decide_by_computation.
Defined.

(** ** Rows are only ever added *)

Lemma effect_extends (db db' : Server.Db) (rq : Server.request) :
  effect db rq db' -> Server.extends db db'.
Proof.
  unfold Server.extends.
  destruct 1; simpl; repeat split; try reflexivity;
    apply prefix_app_r; reflexivity.
Qed.

Lemma extends_trans (db1 db2 db3 : Server.Db) :
  Server.extends db1 db2 -> Server.extends db2 db3 -> Server.extends db1 db3.
Proof.
  unfold Server.extends.
  intros (H1 & H2 & H3 & H4) (K1 & K2 & K3 & K4).
  repeat split; etransitivity; eassumption.
Qed.

Lemma run_extends (rqs : list Server.request) (db : Server.Db) :
  Server.extends db (Server.run rqs db).
Proof.
  apply (run_keeps (Server.extends db)).
  - intros rq d Hd. eapply extends_trans; [exact Hd|].
    apply (effect_extends _ _ rq), handle_effect.
  - repeat split; reflexivity.
Qed.

(** X17: no request deletes, changes or reorders a user or an entry: after any
    run of requests each of the users, expenses, incomes and places tables
    starts with exactly the rows it had before. *)
Theorem tables_only_grow (rqs : list Server.request) (db : Server.Db) :
  Server.users db `prefix_of` Server.users (Server.run rqs db) /\
  Server.expenses db `prefix_of` Server.expenses (Server.run rqs db) /\
  Server.incomes db `prefix_of` Server.incomes (Server.run rqs db) /\
  Server.places db `prefix_of` Server.places (Server.run rqs db).
Proof. apply run_extends. Qed.

(** ** One owner's data and the requests of the others *)

Lemma select_by_user_snoc_other {E : Type} `{Server.Entry E}
    (u : Z) (t : list (Server.row E)) (r : Server.row E) :
  Server.user_id r <> u ->
  Server.select_by_user u (t ++ [r]) = Server.select_by_user u t.
Proof.
  intros Hr. unfold Server.select_by_user.
  rewrite filter_app, filter_cons_False by exact Hr.
  rewrite filter_nil, app_nil_r. reflexivity.
Qed.

Lemma effect_other_owner (db db' : Server.Db) (rq : Server.request) (u : Z) :
  effect db rq db' ->
  u ∈ Server.user_ids db -> Server.request_owner rq <> Some u ->
  Server.get_data u db' = Server.get_data u db.
Proof.
  intros Heff Hu Hrq. unfold Server.get_data.
  destruct Heff as [rq|username Hname fin Hfin
    |v body Hrow|v body _ _|v body _ _|v body _ _]; simpl in *;
    try reflexivity.
  - f_equal. destruct Hfin as [[-> _]|[-> _]]; [reflexivity|].
    apply lookup_insert_ne. apply lastInsertRowid_above in Hu. lia.
  - f_equal. apply lookup_insert_ne. congruence.
  - f_equal. apply select_by_user_snoc_other. simpl. congruence.
  - f_equal. apply select_by_user_snoc_other. simpl. congruence.
  - f_equal. apply select_by_user_snoc_other. simpl. congruence.
Qed.

(** X18: what the data route returns to a registered user (the finances row
    and the three listings) is not changed by any run of requests in which no
    request acts for that user: other users' postings and new registrations
    do not show. *)
Theorem other_owners_do_not_show (rqs : list Server.request)
    (db : Server.Db) (u : Z) :
  u ∈ Server.user_ids db ->
  Forall (fun rq => Server.request_owner rq <> Some u) rqs ->
  Server.get_data u (Server.run rqs db) = Server.get_data u db.
Proof.
  revert db. induction rqs as [|rq rqs IH]; intros db Hu Hrqs; [reflexivity|].
  apply List.Forall_cons_iff in Hrqs as [Hrq Hrqs]. simpl.
  rewrite IH; [|
    |exact Hrqs].
  - apply (effect_other_owner _ _ rq); [apply handle_effect|exact Hu|exact Hrq].
  - destruct (effect_extends _ _ rq (handle_effect rq db)) as [[k Hk] _].
    unfold Server.user_ids. rewrite Hk, fmap_app. apply elem_of_app. left.
    exact Hu.
Qed.

Lemma other_owners_do_not_show_witness :
  Server.get_data 1
    (Server.run [Server.Register "meera"; Server.PostExpense 2 metro_card;
                 Server.PostFinances 2 Server.Finances.default] two_users)
  = Server.get_data 1 two_users.
Proof.
  apply (other_owners_do_not_show
           [Server.Register "meera"; Server.PostExpense 2 metro_card;
            Server.PostFinances 2 Server.Finances.default] two_users 1).
  - decide_by_computation.
  - repeat constructor; discriminate.
Defined.

(** ** Saving and reading the fixed finances *)

Lemma or0_Some (n : Z) : (if n =? 0 then 0 else n) = n.
Proof. destruct (Z.eqb_spec n 0); congruence. Qed.

Lemma fetched_finances (d : Server.Data) (st : AppState) (row : Server.Finances.row) :
  Server.d_finances d = Some row -> saveFinances (fetchData d st) = row.
Proof.
  intros Hrow. unfold saveFinances, fetchData. rewrite Hrow. simpl.
  rewrite !or0_Some. destruct row; reflexivity.
Qed.

(** X19: a registered user reads back what was saved: after the finances of
    the component are posted, fetching the data sets the eight cells to the
    posted values, whatever they held in between. *)
Theorem saved_finances_read_back (db : Server.Db) (u : Z)
    (st st' : AppState) :
  Server.reached db -> u ∈ Server.user_ids db ->
  saveFinances
    (fetchData
       (Server.get_data u (fst (Server.post_finances u (saveFinances st) db)))
       st')
  = saveFinances st.
Proof.
  intros Hdb Hu. apply fetched_finances. simpl.
  destruct (reached_consistent db Hdb) as (Hfin & _).
  apply Hfin in Hu as [row Hrow].
  unfold Server.update_finances. rewrite Hrow. apply lookup_insert_eq.
Qed.

Lemma saved_finances_read_back_witness :
  saveFinances
    (fetchData
       (Server.get_data 2
          (fst (Server.post_finances 2 (saveFinances scenario) two_users)))
       initial)
  = saveFinances scenario.
Proof.
  apply (saved_finances_read_back two_users 2 scenario initial
           two_users_reached).
  decide_by_computation.
Defined.

(** X20: posting finances for an id that has no finances row answers success
    and changes nothing: the update matches no row and none is created, so
    the next read still gives zeros. *)
Theorem finances_without_row_are_dropped (db : Server.Db) (u : Z)
    (body : Server.Finances.row) (st : AppState) :
  Server.finances db !! u = None ->
  Server.post_finances u body db = (db, Server.json_success) /\
  saveFinances
    (fetchData (Server.get_data u (fst (Server.post_finances u body db))) st)
  = Server.Finances.mk 0 0 0 0 0 0 0 0.
Proof.
  intros Hnone.
  assert (Hpost : Server.post_finances u body db = (db, Server.json_success)).
  { unfold Server.post_finances, Server.update_finances.
    rewrite Hnone, set_finances_same. reflexivity. }
  split; [exact Hpost|].
  rewrite Hpost. unfold saveFinances, fetchData, Server.get_data. simpl.
  rewrite Hnone. reflexivity.
Qed.

Lemma finances_without_row_are_dropped_witness :
  Server.post_finances 7 (saveFinances scenario) two_users
  = (two_users, Server.json_success).
Proof.
  exact (proj1 (finances_without_row_are_dropped two_users 7
                  (saveFinances scenario) scenario eq_refl)).
Defined.

(** X21: the last posted finances win: posting one body and then another for
    the same user leaves the database as posting only the second does. *)
Theorem last_finances_win (db : Server.Db) (u : Z)
    (body1 body2 : Server.Finances.row) :
  fst (Server.post_finances u body2 (fst (Server.post_finances u body1 db)))
  = fst (Server.post_finances u body2 db).
Proof.
  unfold Server.post_finances, Server.set_finances, Server.update_finances.
  simpl. destruct (Server.finances db !! u) as [row|] eqn:Hrow.
  - rewrite lookup_insert_eq, insert_insert_eq. reflexivity.
  - rewrite Hrow. reflexivity.
Qed.

(** ** Appending and listing *)

Section Appending.
Context {E : Type} `{Server.Entry E}.

Lemma select_by_user_snoc_own (u : Z) (t : list (Server.row E)) (e : E) :
  Server.select_by_user u (t ++ [Server.mkRow u e])
  ≡ₚ Server.mkRow u e :: Server.select_by_user u t.
Proof.
  rewrite !select_by_user_Permutation.
  rewrite filter_app, filter_cons_True by reflexivity.
  rewrite filter_nil. symmetry. apply Permutation_cons_append.
Qed.

Lemma listed_entries_snoc_own (u : Z) (t : list (Server.row E)) (e : E) :
  Server.entry <$> Server.select_by_user u (t ++ [Server.mkRow u e])
  ≡ₚ e :: (Server.entry <$> Server.select_by_user u t).
Proof. rewrite select_by_user_snoc_own. reflexivity. Qed.
End Appending.

(** X22: when an append is answered with success, the user's next listing of
    that kind is the previous listing with the new entry added (in the place
    its identifier gives it), and the user's other two listings and finances
    are as before. *)
Theorem appended_entry_is_listed (db : Server.Db) (u : Z) :
  (forall body : Expense.t,
     snd (Server.post_expenses u body db) = Server.json_success ->
     Server.d_expenses (Server.get_data u (fst (Server.post_expenses u body db)))
       ≡ₚ Server.mkRow u body :: Server.d_expenses (Server.get_data u db) /\
     Server.d_incomes (Server.get_data u (fst (Server.post_expenses u body db)))
       = Server.d_incomes (Server.get_data u db) /\
     Server.d_places (Server.get_data u (fst (Server.post_expenses u body db)))
       = Server.d_places (Server.get_data u db) /\
     Server.d_finances (Server.get_data u (fst (Server.post_expenses u body db)))
       = Server.d_finances (Server.get_data u db)) /\
  (forall body : Income.t,
     snd (Server.post_incomes u body db) = Server.json_success ->
     Server.d_incomes (Server.get_data u (fst (Server.post_incomes u body db)))
       ≡ₚ Server.mkRow u body :: Server.d_incomes (Server.get_data u db) /\
     Server.d_expenses (Server.get_data u (fst (Server.post_incomes u body db)))
       = Server.d_expenses (Server.get_data u db) /\
     Server.d_places (Server.get_data u (fst (Server.post_incomes u body db)))
       = Server.d_places (Server.get_data u db) /\
     Server.d_finances (Server.get_data u (fst (Server.post_incomes u body db)))
       = Server.d_finances (Server.get_data u db)) /\
  (forall body : Place.t,
     snd (Server.post_places u body db) = Server.json_success ->
     Server.d_places (Server.get_data u (fst (Server.post_places u body db)))
       ≡ₚ Server.mkRow u body :: Server.d_places (Server.get_data u db) /\
     Server.d_expenses (Server.get_data u (fst (Server.post_places u body db)))
       = Server.d_expenses (Server.get_data u db) /\
     Server.d_incomes (Server.get_data u (fst (Server.post_places u body db)))
       = Server.d_incomes (Server.get_data u db) /\
     Server.d_finances (Server.get_data u (fst (Server.post_places u body db)))
       = Server.d_finances (Server.get_data u db)).
Proof.
  split; [|split]; intros body.
  - unfold Server.post_expenses.
    destruct (insert_row_cases db (Server.expenses db) (Server.mkRow u body))
      as [(-> & _ & _)|[e ->]]; simpl; [intros _|discriminate].
    repeat split. apply select_by_user_snoc_own.
  - unfold Server.post_incomes.
    destruct (insert_row_cases db (Server.incomes db) (Server.mkRow u body))
      as [(-> & _ & _)|[e ->]]; simpl; [intros _|discriminate].
    repeat split. apply select_by_user_snoc_own.
  - unfold Server.post_places.
    destruct (insert_row_cases db (Server.places db) (Server.mkRow u body))
      as [(-> & _ & _)|[e ->]]; simpl; [intros _|discriminate].
    repeat split. apply select_by_user_snoc_own.
Qed.

Lemma appended_entry_is_listed_witness :
  Server.d_expenses
    (Server.get_data 1 (fst (Server.post_expenses 1 metro_card two_users)))
  ≡ₚ Server.mkRow 1 metro_card :: Server.d_expenses (Server.get_data 1 two_users).
Proof.
  exact (proj1 (proj1 (appended_entry_is_listed two_users 1) metro_card
                  eq_refl)).
Defined.

(** ** The component and the server *)

(** X23: if the lists of the component hold what the server has for the user
    and an append is answered with success, then after the handler has put
    the new entry in front the lists again hold what the server has: a
    refetch would bring the same entries, in the server's order. *)
Theorem successful_append_keeps_sync (u : Z) (st : AppState) (db : Server.Db) :
  in_sync u st db ->
  (forall e : Expense.t,
     snd (Server.post_expenses u e db) = Server.json_success ->
     in_sync u (fst (submitExpense u e (st, db)))
               (snd (submitExpense u e (st, db)))) /\
  (forall i : Income.t,
     snd (Server.post_incomes u i db) = Server.json_success ->
     in_sync u (fst (submitIncome u i (st, db)))
               (snd (submitIncome u i (st, db)))) /\
  (forall p : Place.t,
     snd (Server.post_places u p db) = Server.json_success ->
     in_sync u (fst (submitPlace u p (st, db)))
               (snd (submitPlace u p (st, db)))).
Proof.
  unfold in_sync, submitExpense, submitIncome, submitPlace.
  cbn [fst snd Server.get_data Server.d_expenses Server.d_incomes
       Server.d_places].
  intros (He & Hi & Hp). split; [|split]; intros x.
  - unfold Server.post_expenses.
    destruct (insert_row_cases db (Server.expenses db) (Server.mkRow u x))
      as [(-> & _ & _)|[e ->]]; [intros _|discriminate].
    cbn [fst Server.set_expenses Server.expenses Server.incomes Server.places
         handleAddExpense setExpenses expenses incomes places].
    split; [|split; assumption].
    rewrite listed_entries_snoc_own. constructor. exact He.
  - unfold Server.post_incomes.
    destruct (insert_row_cases db (Server.incomes db) (Server.mkRow u x))
      as [(-> & _ & _)|[e ->]]; [intros _|discriminate].
    cbn [fst Server.set_incomes Server.expenses Server.incomes Server.places
         handleAddIncome setIncomes expenses incomes places].
    split; [exact He|]. split; [|exact Hp].
    rewrite listed_entries_snoc_own. constructor. exact Hi.
  - unfold Server.post_places.
    destruct (insert_row_cases db (Server.places db) (Server.mkRow u x))
      as [(-> & _ & _)|[e ->]]; [intros _|discriminate].
    cbn [fst Server.set_places Server.expenses Server.incomes Server.places
         handleAddPlace setPlaces expenses incomes places].
    split; [exact He|]. split; [exact Hi|].
    rewrite listed_entries_snoc_own. constructor. exact Hp.
Qed.

Lemma two_users_in_sync :
  in_sync 1 (fetchData (Server.get_data 1 two_users) initial) two_users.
Proof. repeat split; reflexivity. Qed.

Lemma successful_append_keeps_sync_witness :
  in_sync 1
    (fst (submitExpense 1 metro_card
            (fetchData (Server.get_data 1 two_users) initial, two_users)))
    (snd (submitExpense 1 metro_card
            (fetchData (Server.get_data 1 two_users) initial, two_users))).
Proof.
  exact (proj1 (successful_append_keeps_sync 1 _ two_users two_users_in_sync)
           metro_card eq_refl).
Defined.

Lemma tripDynamicSpent_add_trip (st : AppState) (e : Expense.t) :
  Expense.accountId e = "trip" ->
  tripDynamicSpent (handleAddExpense e st)
  = tripDynamicSpent st + Expense.amount e.
Proof.
  intros He. unfold tripDynamicSpent. rewrite tripExpenses_add, He.
  change (total Expense.amount (e :: tripExpenses st)
          = total Expense.amount (tripExpenses st) + Expense.amount e).
  rewrite total_cons. lia.
Qed.

Lemma tripDynamicSpent_intval (st : AppState) :
  total (fun e => Z.abs (Expense.amount e)) (tripExpenses st) < 2 ^ 53 ->
  Double.intval (Double.tripDynamicSpent st) = Some (tripDynamicSpent st).
Proof.
  intros Hb. unfold Double.tripDynamicSpent.
  rewrite (reduce_exact Expense.amount) by exact Hb.
  pose proof (total_le_magnitude Expense.amount (tripExpenses st)).
  rewrite intval_num by lia. reflexivity.
Qed.

(** X24: an append whose identifier is already in the expenses table is
    rejected by the server and leaves the database as it was, but the handler
    does not look at the reply and still puts the expense in front of the
    list.  The component then shows an expense the server does not have: the
    refetch drops it, and for a "trip" expense, with whole-number amounts
    whose magnitudes add up to less than 2^53, the component's
    tripDynamicSpent is higher by exactly the amount than what a refetch
    gives. *)
Theorem rejected_append_still_shown (u : Z) (st : AppState) (db : Server.Db)
    (e : Expense.t) :
  in_sync u st db ->
  Expense.id e ∈ Server.row_id <$> Server.expenses db ->
  snd (submitExpense u e (st, db)) = db /\
  expenses (fst (submitExpense u e (st, db))) = e :: expenses st /\
  expenses (fetchData (Server.get_data u (snd (submitExpense u e (st, db))))
                      (fst (submitExpense u e (st, db))))
    ≡ₚ expenses st /\
  (Expense.accountId e = "trip" ->
   total (fun x => Z.abs (Expense.amount x))
         (tripExpenses (fst (submitExpense u e (st, db)))) < 2 ^ 53 ->
   exists refetched : Z,
     Double.intval
       (Double.tripDynamicSpent
          (fetchData (Server.get_data u (snd (submitExpense u e (st, db))))
                     (fst (submitExpense u e (st, db)))))
     = Some refetched /\
     Double.intval (Double.tripDynamicSpent (fst (submitExpense u e (st, db))))
     = Some (refetched + Expense.amount e)).
Proof.
  intros (He & _ & _) Hdup.
  assert (Hdb : snd (submitExpense u e (st, db)) = db).
  { unfold submitExpense, Server.post_expenses. simpl.
    rewrite (proj2 (insert_row_duplicate db (Server.expenses db)
                      (Server.mkRow u e))) by exact Hdup.
    reflexivity. }
  split; [exact Hdb|]. split; [reflexivity|].
  rewrite Hdb. split; [symmetry; exact He|].
  intros Htrip Hb.
  change (fst (submitExpense u e (st, db))) with (handleAddExpense e st) in *.
  set (st' := fetchData (Server.get_data u db) (handleAddExpense e st)).
  assert (Hperm : Permutation (tripExpenses st) (tripExpenses st')).
  { apply filter_Permutation_bool. exact He. }
  assert (Hsame : tripDynamicSpent st' = tripDynamicSpent st).
  { symmetry. apply (total_Permutation Expense.amount), Hperm. }
  rewrite tripExpenses_add, Htrip in Hb. cbn [String.eqb Ascii.eqb Bool.eqb] in Hb.
  rewrite total_cons in Hb.
  exists (tripDynamicSpent st'). split.
  - apply tripDynamicSpent_intval.
    rewrite <- (total_Permutation _ _ _ Hperm). lia.
  - rewrite tripDynamicSpent_intval.
    + rewrite (tripDynamicSpent_add_trip st e Htrip), Hsame. reflexivity.
    + rewrite tripExpenses_add, Htrip. cbn [String.eqb Ascii.eqb Bool.eqb].
      rewrite total_cons. lia.
Qed.

Lemma rejected_append_still_shown_witness :
  snd (submitExpense 1 momos
         (fetchData (Server.get_data 1 two_users) initial, two_users))
  = two_users /\
  exists refetched : Z,
    Double.intval
      (Double.tripDynamicSpent
         (fetchData
            (Server.get_data 1
               (snd (submitExpense 1 momos
                       (fetchData (Server.get_data 1 two_users) initial,
                        two_users))))
            (fst (submitExpense 1 momos
                    (fetchData (Server.get_data 1 two_users) initial,
                     two_users)))))
    = Some refetched /\
    Double.intval
      (Double.tripDynamicSpent
         (fst (submitExpense 1 momos
                 (fetchData (Server.get_data 1 two_users) initial, two_users))))
    = Some (refetched + Expense.amount momos).
Proof.
  destruct (rejected_append_still_shown 1
              (fetchData (Server.get_data 1 two_users) initial) two_users momos
              two_users_in_sync) as (Hdb & _ & _ & Hspent).
  - decide_by_computation.
  - split; [exact Hdb|]. apply (Hspent eq_refl). vm_compute. reflexivity.
Defined.

(** * Identifiers made from timestamps *)

Section Digits.
Import DecimalPos.Unsigned.
Local Open Scope N_scope.

Lemma of_uint_cons (d : Decimal.uint) :
  d <> Decimal.Nil ->
  N.of_uint d = hd d * 10 ^ usize (tl d) + N.of_uint (tl d).
Proof.
  intros Hd. unfold N.of_uint. rewrite !of_uint_alt.
  destruct d; [contradiction| ..]; unfold Decimal.rev at 1;
    simpl Decimal.revapp; rewrite of_lu_revapp; simpl; lia.
Qed.

Lemma of_uint_bound (d : Decimal.uint) : N.of_uint d < 10 ^ usize d.
Proof.
  induction d;
    [simpl; lia| ..];
    (rewrite of_uint_cons by discriminate;
     simpl hd; simpl tl; simpl usize; rewrite N.pow_succ_r'; lia).
Qed.

Lemma compare_digits (k1 k2 p v1 v2 : N) :
  v1 < p -> v2 < p ->
  (k1 * p + v1 ?= k2 * p + v2) =
  match k1 ?= k2 with
  | Eq => v1 ?= v2
  | c => c
  end.
Proof.
  intros H1 H2. destruct (N.compare_spec k1 k2) as [->|Hk|Hk].
  - destruct (N.compare_spec v1 v2) as [->|Hv|Hv].
    + apply N.compare_refl.
    + apply N.compare_lt_iff. lia.
    + apply N.compare_gt_iff. lia.
  - apply N.compare_lt_iff. nia.
  - apply N.compare_gt_iff. nia.
Qed.

Lemma string_of_uint_compare (d1 d2 : Decimal.uint) :
  usize d1 = usize d2 ->
  String.compare (DecimalString.NilEmpty.string_of_uint d1)
                 (DecimalString.NilEmpty.string_of_uint d2)
  = (N.of_uint d1 ?= N.of_uint d2).
Proof.
  revert d2.
  induction d1 as [|l1 IH|l1 IH|l1 IH|l1 IH|l1 IH|l1 IH|l1 IH|l1 IH|l1 IH|l1 IH];
    intros [|l2|l2|l2|l2|l2|l2|l2|l2|l2|l2] Hsize;
    try reflexivity;
    try (exfalso; simpl in Hsize; lia);
    (simpl in Hsize; apply N.succ_inj in Hsize;
     match goal with
     | |- _ = (N.of_uint ?a ?= N.of_uint ?b) =>
         rewrite (of_uint_cons a), (of_uint_cons b) by discriminate
     end; simpl tl; simpl hd;
     rewrite Hsize, compare_digits
       by first [apply of_uint_bound
                |rewrite <- Hsize; apply of_uint_bound];
     simpl; rewrite ?(IH l2 Hsize); reflexivity).
Qed.

Lemma string_of_uint_length (d : Decimal.uint) :
  String.length (DecimalString.NilEmpty.string_of_uint d) = N.to_nat (usize d).
Proof.
  induction d; simpl; [reflexivity| ..];
    rewrite IHd, N2Nat.inj_succ; reflexivity.
Qed.

Lemma toString_digits (n : N) :
  toString n = DecimalString.NilEmpty.string_of_uint (N.to_uint n).
Proof.
  unfold toString, DecimalString.NilZero.string_of_uint.
  destruct (N.to_uint n) eqn:Hd; try reflexivity.
  destruct n as [|p]; [discriminate|].
  exfalso. exact (to_uint_nonnil p Hd).
Qed.

Lemma toString_compare (n m : N) :
  String.length (toString n) = String.length (toString m) ->
  String.compare (toString n) (toString m) = (n ?= m).
Proof.
  rewrite !toString_digits, !string_of_uint_length. intros Hlen.
  apply N2Nat.inj in Hlen.
  rewrite (string_of_uint_compare _ _ Hlen).
  rewrite !DecimalN.Unsigned.of_to. reflexivity.
Qed.
End Digits.

(** X25: for two timestamps whose decimal forms have the same number of
    digits, the bytewise order of the identifiers made from them is the order
    of the timestamps: the later timestamp gives the greater identifier. *)
Theorem timestamp_ids_ordered (n m : N) :
  String.length (toString n) = String.length (toString m) ->
  (String.ltb (toString n) (toString m) = true <-> (n < m)%N) /\
  (toString n = toString m <-> n = m).
Proof.
  intros Hlen. pose proof (toString_compare n m Hlen) as Hcmp. split.
  - unfold String.ltb. rewrite Hcmp, <- N.compare_lt_iff.
    destruct (n ?= m)%N; split; congruence.
  - split; [|congruence]. intros Heq.
    rewrite Heq, string_compare_refl in Hcmp.
    symmetry in Hcmp. apply N.compare_eq_iff, Hcmp.
Qed.

Lemma timestamp_ids_ordered_witness :
  String.ltb (toString 1700000000001) (toString 1700000000002) = true.
Proof.
  apply (proj1 (timestamp_ids_ordered 1700000000001 1700000000002 eq_refl)).
  reflexivity.
Defined.

Lemma Sorted_of_fmap {A B : Type} (f : A -> B) (R : B -> B -> Prop)
    (l : list A) :
  Sorted R (f <$> l) -> Sorted (fun x y => R (f x) (f y)) l.
Proof.
  induction l as [|x l IH]; intros Hs; [constructor|].
  inversion_clear Hs as [|? ? Hs' Hhd]. constructor; [apply IH, Hs'|].
  destruct l; [constructor|]. inversion_clear Hhd. constructor. assumption.
Qed.

(** X26: when the rows of a table were appended with identifiers made from
    timestamps, each later than the one before it and with as many digits,
    the listing of every user is most recently appended first. *)
Theorem timestamp_ids_list_newest_first {E : Type} `{Server.Entry E}
    (stamps : list N) (t : list (Server.row E)) (u : Z) :
  Server.row_id <$> t = toString <$> stamps ->
  Sorted later_same_width stamps ->
  Server.select_by_user u t = Server.newest_first u t.
Proof.
  intros Hids Hstamps. apply select_by_user_newest_first.
  apply (Sorted_of_fmap Server.row_id (fun a b => String.ltb a b = true)).
  rewrite Hids.
  eapply Sorted_fmap; [|exact Hstamps].
  intros n m [Hlt Hlen]. unfold String.ltb.
  rewrite (toString_compare n m Hlen).
  apply N.compare_lt_iff in Hlt. rewrite Hlt. reflexivity.
Qed.

Lemma timestamp_ids_list_newest_first_witness :
  Server.d_expenses (Server.get_data 1 one_user)
  = Server.newest_first 1 (Server.expenses one_user).
Proof.
  apply (timestamp_ids_list_newest_first [1700000000001; 1700000000002]%N
           (Server.expenses one_user) 1).
  - reflexivity.
  - repeat constructor.
Defined.
